(** * KRR-course example notebooks: 3-coloring with a CSP solver, ASP with clingo

The repository consists of two Jupyter notebooks,
[examples/3coloring-csp.ipynb] and [examples/asp.ipynb].  Each one is a
linear Python script, split in cells, that builds a small problem
instance, hands it to an external solver library (OR-Tools' CP-SAT,
clingo) and prints what the solver returns.

The notebooks are embedded as programs of a small state-and-exception
monad over the notebook kernel's state: the Python globals that are
mutated, the standard output, and the log of calls into the external
library.  The libraries are modelled by what the notebooks can observe of
them: a model is the list of variables and constraints registered with
it; the search itself is a parameter of the development. *)

From stdpp Require Import gmap strings list pretty.

(** ** A fragment of Python *)

Module Python.

(** The exceptions the notebooks can meet. *)
Inductive exn : Type :=
| KeyError (key : Z)          (* d[k] with k not a key of d *)
| IndexError (index : nat)    (* l[i] with i out of range *)
| NameError (name : string)   (* a global read before it is bound *)
| RuntimeError.               (* raised by a library on a misuse *)

(** A statement runs on the kernel state and leaves a new state together
    with either a value or the exception that stopped it.  The mutations
    made before an exception persist, as they do in a notebook. *)
Definition Py (St A : Type) : Type := St → St * (exn + A).

#[global] Instance Py_ret {St} : MRet (Py St) := λ A a s, (s, inr a).

#[global] Instance Py_bind {St} : MBind (Py St) := λ A B f m s,
  match m s with
  | (s', inr a) => f a s'
  | (s', inl e) => (s', inl e)
  end.

Definition raise {St A} (e : exn) : Py St A := λ s, (s, inl e).
Definition gets {St A} (f : St → A) : Py St A := λ s, (s, inr (f s)).
Definition modify {St} (f : St → St) : Py St unit := λ s, (f s, inr ()).

(** [for x in l: body] *)
Fixpoint for_in {St A} (l : list A) (body : A → Py St unit) : Py St unit :=
  match l with
  | [] => mret ()
  | x :: l' => body x ;; for_in l' body
  end.

(** [range(lo, hi)] *)
Definition range (lo hi : Z) : list Z := seqZ lo (hi - lo).

(** ["{}".format(n)] for an integer [n] *)
Definition format_int (n : Z) : string := pretty n.

(** [d[k]] for a dictionary with integer keys *)
Definition getitem {St V} (d : gmap Z V) (k : Z) : Py St V :=
  match d !! k with
  | Some v => mret v
  | None => raise (KeyError k)
  end.

(** The state a program leaves. *)
Definition exec {St A} (m : Py St A) (s : St) : St := fst (m s).

(** [m] only appends to the list [proj] of the state, and what it appends
    satisfies [P]: the footprint of a program on the output or on the
    call log. *)
Definition appends {St X A} (proj : St → list X) (P : X → Prop)
    (m : Py St A) : Prop :=
  ∀ s, ∃ l, proj (exec m s) = proj s ++ l ∧ Forall P l.

(** [m] leaves the component [proj] of the state as it is. *)
Definition preserves {St X A} (proj : St → X) (m : Py St A) : Prop :=
  ∀ s, proj (exec m s) = proj s.

End Python.

Import Python.

(** ** Calls into the external libraries

Every callable of OR-Tools and of clingo that the notebooks invoke.
The library operations below log their own name when they are called. *)

Inductive entry_point : Type :=
| cp_model_CpModel      (* cp_model.CpModel() *)
| CpModel_NewIntVar     (* model.NewIntVar(lb, ub, name) *)
| CpModel_Add           (* model.Add(ct) *)
| cp_model_CpSolver     (* cp_model.CpSolver() *)
| CpSolver_Solve        (* solver.Solve(model) *)
| CpSolver_Value        (* solver.Value(x) *)
| clingo_Control        (* clingo.Control() *)
| Control_add           (* control.add(name, parameters, program) *)
| Control_ground        (* control.ground(parts) *)
| Control_solve         (* control.solve(on_model=...) *)
| Model_symbols.        (* model.symbols(atoms=True) *)

#[global] Instance entry_point_eq_dec : EqDecision entry_point.
Proof. solve_decision. Defined.

(** How many times [e] occurs in a call log. *)
Definition times_called (e : entry_point) (log : list entry_point) : nat :=
  length (filter (λ c, c = e) log).

(** What a call is for.  In the 3-coloring notebook the input of the solver
    is the model object: creating it, its variables and its constraints
    builds the input.  In the clingo notebook the input is the string
    [asp_program], built without any call; [clingo.Control] creates the
    solver, as [cp_model.CpSolver] does, and [add] and [ground] are the
    grounding interface of the solver to which the string is passed.
    Reading a value of the response, or the symbols of a model, serves the
    printing of the result. *)
Inductive role : Type := builds_input | runs_solver | reads_result.

#[global] Instance role_eq_dec : EqDecision role.
Proof. solve_decision. Defined.

Definition role_of (e : entry_point) : role :=
  match e with
  | cp_model_CpModel | CpModel_NewIntVar | CpModel_Add => builds_input
  | cp_model_CpSolver | CpSolver_Solve => runs_solver
  | clingo_Control | Control_add | Control_ground | Control_solve => runs_solver
  | CpSolver_Value | Model_symbols => reads_result
  end.

(** The distinct entry points that a call log shows, beyond those that build
    inputs and those that read results for printing. *)
Definition solver_entry_points (log : list entry_point) : list entry_point :=
  remove_dups (filter (λ e, role_of e = runs_solver) log).

(** ** examples/3coloring-csp.ipynb *)

Module CSP.

Local Open Scope Z_scope.

(** *** What the notebook sees of OR-Tools' [cp_model] *)

(** An integer variable: its index in the model, its bounds, its name. *)
Record IntVar : Type := mkIntVar {
  Index : nat;
  Lb : Z;
  Ub : Z;
  Name : string
}.

#[global] Instance IntVar_eq_dec : EqDecision IntVar.
Proof. solve_decision. Defined.

(** The value of [x != y] on two variables. *)
Inductive BoundedLinearExpression : Type :=
| NotEqual (x y : IntVar).

#[global] Instance BoundedLinearExpression_eq_dec :
  EqDecision BoundedLinearExpression.
Proof. solve_decision. Defined.

Record CpModel : Type := mkCpModel {
  variables : list IntVar;
  constraints : list BoundedLinearExpression
}.

Inductive CpSolverStatus : Type :=
| UNKNOWN | MODEL_INVALID | FEASIBLE | INFEASIBLE | OPTIMAL.

#[global] Instance CpSolverStatus_eq_dec : EqDecision CpSolverStatus.
Proof. solve_decision. Defined.

(** A solver object holds the response of its last [Solve]: the status and
    the value found for each variable, by index. *)
Record CpSolver : Type := mkCpSolver {
  response_status : CpSolverStatus;
  solution : list Z
}.

(** An assignment gives a value to each variable index. *)
Definition assignment : Type := nat → Z.

Definition in_domain (x : IntVar) (v : Z) : Prop := Lb x ≤ v ≤ Ub x.

Definition holds (σ : assignment) (ct : BoundedLinearExpression) : Prop :=
  match ct with
  | NotEqual x y => σ (Index x) ≠ σ (Index y)
  end.

Definition satisfies_constraints (σ : assignment) (m : CpModel) : Prop :=
  Forall (holds σ) (constraints m).

Definition within_domains (σ : assignment) (m : CpModel) : Prop :=
  Forall (λ x, in_domain x (σ (Index x))) (variables m).

(** *** The kernel state of the notebook

    A state holds the objects to which the globals [model], [vars] and
    [solver] are bound.  [fresh_kernel] stands for the kernel before the
    first cell: it holds empty objects in the place of the globals, which
    are not bound yet.  A run that starts at cell 1 never reads them, since
    cell 1 binds [model], cell 3 binds [vars] and cell 5 binds [solver]
    before any use; a statement about a later cell alone is about the states
    in which the globals it reads are bound. *)

Record kernel : Type := mkKernel {
  model : CpModel;             (* the global [model] *)
  vars : gmap Z IntVar;        (* the global [vars] *)
  solver : CpSolver;           (* the global [solver] *)
  stdout : list string;        (* the lines printed so far *)
  calls : list entry_point     (* the library calls made so far *)
}.

Definition fresh_kernel : kernel :=
  {| model := mkCpModel [] [];
     vars := ∅;
     solver := mkCpSolver UNKNOWN [];
     stdout := [];
     calls := [] |}.

Definition put_model (m : CpModel) (k : kernel) : kernel :=
  {| model := m; vars := vars k; solver := solver k;
     stdout := stdout k; calls := calls k |}.
Definition put_vars (d : gmap Z IntVar) (k : kernel) : kernel :=
  {| model := model k; vars := d; solver := solver k;
     stdout := stdout k; calls := calls k |}.
Definition put_solver (s : CpSolver) (k : kernel) : kernel :=
  {| model := model k; vars := vars k; solver := s;
     stdout := stdout k; calls := calls k |}.
Definition log (e : entry_point) : Py kernel unit :=
  modify (λ k, {| model := model k; vars := vars k; solver := solver k;
                  stdout := stdout k; calls := calls k ++ [e] |}).
Definition print (line : string) : Py kernel unit :=
  modify (λ k, {| model := model k; vars := vars k; solver := solver k;
                  stdout := stdout k ++ [line]; calls := calls k |}).

(** *** The library operations, on the kernel's model and solver *)

(** [model = cp_model.CpModel()] *)
Definition new_CpModel : Py kernel unit :=
  log cp_model_CpModel ;;
  modify (put_model (mkCpModel [] [])).

(** [model.NewIntVar(lb, ub, name)] *)
Definition NewIntVar (lb ub : Z) (name : string) : Py kernel IntVar :=
  log CpModel_NewIntVar ;;
  m ← gets model ;
  let x := mkIntVar (length (variables m)) lb ub name in
  modify (put_model (mkCpModel (variables m ++ [x]) (constraints m))) ;;
  mret x.

(** [model.Add(ct)] *)
Definition Add (ct : BoundedLinearExpression) : Py kernel unit :=
  log CpModel_Add ;;
  m ← gets model ;
  modify (put_model (mkCpModel (variables m) (constraints m ++ [ct]))).

(** *** The cells *)

(** Cell 1: [model = cp_model.CpModel()] *)
Definition cell1 : Py kernel unit := new_CpModel.

(** Cell 2 *)
Definition num_vertices : Z := 4.
Definition edges : list (Z * Z) := [(1,2);(1,3);(2,3);(2,4);(3,4)].

Definition cell2 : Py kernel unit := mret ().

(** Cell 3:
<<
    vars = dict()
    for i in range(1,num_vertices+1):
        vars[i] = model.NewIntVar(1, 3, "x{}".format(i))
>> *)
Definition new_vertex_var (i : Z) : Py kernel unit :=
  x ← NewIntVar 1 3 ("x" +:+ format_int i) ;
  d ← gets vars ;
  modify (put_vars (<[i := x]> d)).

Definition cell3 : Py kernel unit :=
  modify (put_vars ∅) ;;
  for_in (range 1 (num_vertices + 1)) new_vertex_var.

(** Cell 4:
<<
    for (i,j) in edges:
        model.Add(vars[i] != vars[j])
>> *)
Definition add_edge_constraint (e : Z * Z) : Py kernel unit :=
  let '(i, j) := e in
  d ← gets vars ;
  xi ← getitem d i ;
  xj ← getitem d j ;
  Add (NotEqual xi xj).

Definition cell4 : Py kernel unit := for_in edges add_edge_constraint.

(** The instance built by cells 1 to 4. *)
Definition build : Py kernel unit := cell1 ;; cell2 ;; cell3 ;; cell4.

(** *** Solving

CP-SAT's search is outside the repository: it is a parameter, the
response the solver gives for a model. *)
Section solving.

Variable search : CpModel → CpSolver.

(** [solver = cp_model.CpSolver()] *)
Definition new_CpSolver : Py kernel unit :=
  log cp_model_CpSolver ;;
  modify (put_solver (mkCpSolver UNKNOWN [])).

(** [solver.Solve(model)] keeps the response in the solver and returns
    its status. *)
Definition Solve : Py kernel CpSolverStatus :=
  log CpSolver_Solve ;;
  m ← gets model ;
  modify (put_solver (search m)) ;;
  mret (response_status (search m)).

(** [solver.Value(x)] reads the value of [x] in the solver's response. *)
Definition Value (x : IntVar) : Py kernel Z :=
  log CpSolver_Value ;;
  s ← gets solver ;
  match solution s !! Index x with
  | Some v => mret v
  | None => raise (IndexError (Index x))
  end.

(** Cell 5:
<<
  solver = cp_model.CpSolver()
  answer = solver.Solve(model)

if answer == cp_model.FEASIBLE:
    print("The graph is 3-colorable:")
    for i in range(1,num_vertices+1):
        print("- Vertex {} gets color {}".format(i,solver.Value(vars[i])))
else:
    print("The graph is not 3-colorable!")
>> *)
Definition print_vertex (i : Z) : Py kernel unit :=
d ← gets vars ;
x ← getitem d i ;
c ← Value x ;
print ("- Vertex " +:+ format_int i +:+ " gets color " +:+ format_int c).

Definition report (answer : CpSolverStatus) : Py kernel unit :=
  if decide (answer = FEASIBLE) then
    print "The graph is 3-colorable:" ;;
    for_in (range 1 (num_vertices + 1)) print_vertex
  else
    print "The graph is not 3-colorable!".

Definition cell5 : Py kernel unit :=
  new_CpSolver ;;
  answer ← Solve ;
  report answer.

Definition notebook : Py kernel unit := build ;; cell5.

End solving.

(** *** Colorings

The coloring of the vertices that an assignment of the variables
induces through the dictionary [vars]. *)
Definition color_of (d : gmap Z IntVar) (σ : assignment) (i : Z) : option Z :=
x ← d !! i ; Some (σ (Index x)).

(** Every vertex from 1 to [n] has one of the colors 1, 2, 3. *)
Definition three_coloring (n : Z) (μ : Z → option Z) : Prop :=
  ∀ i, 1 ≤ i ≤ n → ∃ c, μ i = Some c ∧ (c = 1 ∨ c = 2 ∨ c = 3).

(** The two endpoints of every edge have colors, and different ones. *)
Definition proper (es : list (Z * Z)) (μ : Z → option Z) : Prop :=
  ∀ i j, (i, j) ∈ es → ∃ ci cj, μ i = Some ci ∧ μ j = Some cj ∧ ci ≠ cj.

(** [ct] is the constraint [vars[i] != vars[j]] of the edge [e = (i,j)]. *)
Definition constraint_of_edge (d : gmap Z IntVar) (e : Z * Z)
    (ct : BoundedLinearExpression) : Prop :=
  ∃ xi xj, d !! e.1 = Some xi ∧ d !! e.2 = Some xj ∧ ct = NotEqual xi xj.

(** The variable that cell 3 creates for vertex [i]. *)
Definition x_ (i : Z) : IntVar :=
  mkIntVar (Z.to_nat (i - 1)) 1 3 ("x" +:+ format_int i).

(** The kernel state after cells 1 to 3, and after cells 1 to 4. *)
Definition declared : kernel :=
  {| model := mkCpModel [x_ 1; x_ 2; x_ 3; x_ 4] [];
     vars := <[4 := x_ 4]> (<[3 := x_ 3]> (<[2 := x_ 2]> (<[1 := x_ 1]> ∅)));
     solver := mkCpSolver UNKNOWN [];
     stdout := [];
     calls := cp_model_CpModel :: replicate 4 CpModel_NewIntVar |}.

Definition built : kernel :=
  {| model := mkCpModel [x_ 1; x_ 2; x_ 3; x_ 4]
                [NotEqual (x_ 1) (x_ 2); NotEqual (x_ 1) (x_ 3);
                 NotEqual (x_ 2) (x_ 3); NotEqual (x_ 2) (x_ 4);
                 NotEqual (x_ 3) (x_ 4)];
     vars := vars declared;
     solver := mkCpSolver UNKNOWN [];
     stdout := [];
     calls := calls declared ++ replicate 5 CpModel_Add |}.

(** The kernel state after cells 1 to 4 and the two calls that open
    cell 5. *)
Definition solved (search : CpModel → CpSolver) : kernel :=
  {| model := model built;
     vars := vars built;
     solver := search (model built);
     stdout := [];
     calls := (calls built ++ [cp_model_CpSolver]) ++ [CpSolver_Solve] |}.

(** The response behind the output recorded in the notebook. *)
Definition recorded_search (m : CpModel) : CpSolver :=
  mkCpSolver FEASIBLE [1; 3; 2; 1].

(** The line that cell 5 prints for vertex [i] with color [c]. *)
Definition vertex_line (i c : Z) : string :=
  "- Vertex " +:+ format_int i +:+ " gets color " +:+ format_int c.

(** *** The notebook on another graph

    Cell 2 binds [num_vertices] and [edges]; the cells after it read these
    two globals and nothing else of the graph.  Here are the same cells with
    the two globals as parameters: what the notebook does once cell 2 is
    edited to describe another graph. *)
Section any_graph.

Variable n : Z.
Variable es : list (Z * Z).

Definition cell3_on : Py kernel unit :=
  modify (put_vars ∅) ;;
  for_in (range 1 (n + 1)) new_vertex_var.

Definition cell4_on : Py kernel unit := for_in es add_edge_constraint.

Definition build_on : Py kernel unit :=
  cell1 ;; cell2 ;; cell3_on ;; cell4_on.

Definition report_on (answer : CpSolverStatus) : Py kernel unit :=
  if decide (answer = FEASIBLE) then
    print "The graph is 3-colorable:" ;;
    for_in (range 1 (n + 1)) print_vertex
  else
    print "The graph is not 3-colorable!".

Variable search : CpModel → CpSolver.

Definition cell5_on : Py kernel unit :=
  new_CpSolver ;;
  answer ← Solve search ;
  report_on answer.

Definition notebook_on : Py kernel unit := build_on ;; cell5_on.

End any_graph.

(** The variable that [NewIntVar(1, 3, "x{}".format(i))] returns when the
    model has [index] variables. *)
Definition fresh_var (index : nat) (i : Z) : IntVar :=
  mkIntVar index 1 3 ("x" +:+ format_int i).

(** The kernel [k] after more lines were printed and more calls logged. *)
Definition emit (lines : list string) (cs : list entry_point) (k : kernel)
    : kernel :=
  {| model := model k; vars := vars k; solver := solver k;
     stdout := stdout k ++ lines; calls := calls k ++ cs |}.

(** The kernel [k] after more constraints were registered by [Add]. *)
Definition constrained (cts : list BoundedLinearExpression) (k : kernel)
    : kernel :=
  {| model := mkCpModel (variables (model k)) (constraints (model k) ++ cts);
     vars := vars k; solver := solver k; stdout := stdout k;
     calls := calls k ++ replicate (length cts) CpModel_Add |}.

(** Both endpoints of every edge are vertices. *)
Definition endpoints_in_range (n : Z) (es : list (Z * Z)) : Prop :=
  ∀ i j, (i, j) ∈ es → 1 ≤ i ≤ n ∧ 1 ≤ j ≤ n.

(** The graph on the vertices 1..n with the edges [es] has a proper coloring
    with the colors 1, 2, 3. *)
Definition colorable (n : Z) (es : list (Z * Z)) : Prop :=
  ∃ c : Z → Z,
    (∀ i, 1 ≤ i ≤ n → c i = 1 ∨ c i = 2 ∨ c i = 3) ∧
    (∀ i j, (i, j) ∈ es → c i ≠ c j).

(** An assignment that respects the domains and satisfies the constraints. *)
Definition solution_of (σ : assignment) (m : CpModel) : Prop :=
  within_domains σ m ∧ satisfies_constraints σ m.

(** The assignment that a response holds. *)
Definition assignment_of (sol : list Z) : assignment :=
  λ p, default 0 (sol !! p).

(** A solver that answers OPTIMAL, with a proper 3-coloring of the graph of
    the notebook in its response. *)
Definition optimal_search (m : CpModel) : CpSolver :=
  mkCpSolver OPTIMAL [2; 3; 1; 2].

(** Two kernels with the same model and the same dictionary. *)
Definition same_instance (k1 k2 : kernel) : Prop :=
  model k1 = model k2 ∧ vars k1 = vars k2.

End CSP.

(** ** examples/asp.ipynb *)

Module ASP.

Local Open Scope Z_scope.

(** *** What the notebook sees of clingo *)

(** The symbols of a model: numbers, and function symbols applied to
    symbols (a constant is a function symbol without arguments). *)
#[local] Unset Elimination Schemes.
Inductive Symbol : Type :=
| Number (n : Z)
| Function (name : string) (arguments : list Symbol).
#[local] Set Elimination Schemes.

(** [str(s)] *)
Fixpoint str (s : Symbol) : string :=
  match s with
  | Number n => format_int n
  | Function f [] => f
  | Function f args => f +:+ "(" +:+ String.concat "," (map str args) +:+ ")"
  end.

(** ["{}".format(l)] for a list of symbols *)
Definition format_list (l : list Symbol) : string :=
  "[" +:+ String.concat ", " (map str l) +:+ "]".

(** A model, as [symbols(atoms=True)] lists it. *)
Record Model : Type := mkModel { atoms : list Symbol }.

(** The [satisfiable] attribute is [True], [False] or [None]. *)
Record SolveResult : Type := mkSolveResult { satisfiable : option bool }.

(** A control object: the program parts added, the parts grounded, and
    the option [configuration.solve.models]. *)
Record Control : Type := mkControl {
  programs : list (string * list string * string);
  grounded : list (string * list Symbol);
  solve_models : Z
}.

(** *** The kernel state of the notebook

    A state holds the object to which the global [control] is bound, and
    [answer] once it is bound.  [fresh_kernel] stands for the kernel before
    the first cell: it holds a control object without program in the place
    of [control], which is not bound yet.  A run that starts at cell 3 never
    reads it, since cell 3 binds [control] before any use. *)

Record kernel : Type := mkKernel {
  control : Control;               (* the global [control] *)
  answer : option SolveResult;     (* the global [answer], once bound *)
  stdout : list string;
  calls : list entry_point
}.

Definition fresh_kernel : kernel :=
  {| control := mkControl [] [] (-1);
     answer := None;
     stdout := [];
     calls := [] |}.

Definition put_control (c : Control) (k : kernel) : kernel :=
  {| control := c; answer := answer k;
     stdout := stdout k; calls := calls k |}.
Definition put_answer (r : SolveResult) (k : kernel) : kernel :=
  {| control := control k; answer := Some r;
     stdout := stdout k; calls := calls k |}.
Definition log (e : entry_point) : Py kernel unit :=
  modify (λ k, {| control := control k; answer := answer k;
                  stdout := stdout k; calls := calls k ++ [e] |}).
Definition print (line : string) : Py kernel unit :=
  modify (λ k, {| control := control k; answer := answer k;
                  stdout := stdout k ++ [line]; calls := calls k |}).

(** *** The library operations *)

(** [control = clingo.Control()] *)
Definition new_Control : Py kernel unit :=
  log clingo_Control ;;
  modify (put_control (mkControl [] [] (-1))).

(** [control.add(name, parameters, program)] *)
Definition add (name : string) (parameters : list string) (program : string)
  : Py kernel unit :=
  log Control_add ;;
  c ← gets control ;
  modify (put_control
    (mkControl (programs c ++ [(name, parameters, program)])
               (grounded c) (solve_models c))).

(** [control.ground(parts)] *)
Definition ground (parts : list (string * list Symbol)) : Py kernel unit :=
  log Control_ground ;;
  c ← gets control ;
  modify (put_control
    (mkControl (programs c) (grounded c ++ parts) (solve_models c))).

(** [control.configuration.solve.models = n] *)
Definition set_solve_models (n : Z) : Py kernel unit :=
  c ← gets control ;
  modify (put_control (mkControl (programs c) (grounded c) n)).

(** [model.symbols(atoms=True)] *)
Definition symbols (m : Model) : Py kernel (list Symbol) :=
  log Model_symbols ;;
  mret (atoms m).

(** [atom.name] and [atom.arguments] are defined on function symbols. *)
Definition name {St} (s : Symbol) : Py St string :=
  match s with
  | Function f _ => mret f
  | Number _ => raise RuntimeError
  end.
Definition arguments {St} (s : Symbol) : Py St (list Symbol) :=
  match s with
  | Function _ args => mret args
  | Number _ => raise RuntimeError
  end.

(** *** The cells *)

(** Cell 2 *)
Definition asp_program : string :=
"#const k=3.
number(1..k).
left(X) :- not right(X), number(X).
right(X) :- not left(X), number(X).
:- right(2).".

(** Cell 3:
<<
    control = clingo.Control()
    control.add("base", [], asp_program)
    control.ground([("base", [])])
>> *)
Definition cell3 : Py kernel unit :=
  new_Control ;;
  add "base" [] asp_program ;;
  ground [("base", [])].

(** Cell 4:
<<
    def on_model(model):
        for atom in model.symbols(atoms=True):
            print("Atom with name {} and arguments {} is true in the model: {}".format(atom.name, atom.arguments, atom))
>> *)
Definition print_atom (atom : Symbol) : Py kernel unit :=
  n ← name atom ;
  args ← arguments atom ;
  print ("Atom with name " +:+ n +:+ " and arguments " +:+ format_list args
         +:+ " is true in the model: " +:+ str atom).

Definition on_model (m : Model) : Py kernel unit :=
  l ← symbols m ;
  for_in l print_atom.

(** clingo's grounding and search are outside the repository: a parameter
    gives, for a control object, the models it passes to the callback, in
    order, and the result it returns. *)
Section solving.

Variable search : Control → list Model * SolveResult.

(** [control.solve(on_model=f)] *)
Definition solve (f : Model → Py kernel unit) : Py kernel SolveResult :=
  log Control_solve ;;
  c ← gets control ;
  for_in (search c).1 f ;;
  mret (search c).2.

(** Cell 5:
<<
  control.configuration.solve.models = 1
  answer = control.solve(on_model=on_model)
>> *)
Definition cell5 : Py kernel unit :=
  set_solve_models 1 ;;
  r ← solve on_model ;
  modify (put_answer r).

(** Cell 6:
<<
  if answer.satisfiable == True:
      print("Found a model!")
  else:
      print("Did not find a model!")
>> *)
Definition cell6 : Py kernel unit :=
  a ← gets answer ;
  match a with
  | None => raise (NameError "answer")
  | Some r =>
      if decide (satisfiable r = Some true) then
        print "Found a model!"
      else
        print "Did not find a model!"
  end.

Definition notebook : Py kernel unit := cell3 ;; cell5 ;; cell6.

End solving.

(** The kernel [k] after more lines were printed and more calls logged. *)
Definition emit (lines : list string) (cs : list entry_point) (k : kernel)
    : kernel :=
  {| control := control k; answer := answer k;
     stdout := stdout k ++ lines; calls := calls k ++ cs |}.

(** The control object when [solve] is called. *)
Definition grounded_control : Control :=
  mkControl [("base", [], asp_program)] [("base", [])] 1.

(** The kernel state after cell 3. *)
Definition loaded : kernel :=
  {| control := mkControl [("base", [], asp_program)] [("base", [])] (-1);
     answer := None;
     stdout := [];
     calls := [clingo_Control; Control_add; Control_ground] |}.

(** The kernel state when [solve] starts to call back. *)
Definition solving : kernel :=
  {| control := grounded_control;
     answer := None;
     stdout := [];
     calls := [clingo_Control; Control_add; Control_ground; Control_solve] |}.

Definition is_function (s : Symbol) : Prop :=
  ∃ f args, s = Function f args.

(** The atoms that clingo passes to the callback are function symbols. *)
Definition atoms_are_functions (ms : list Model) : Prop :=
  Forall (λ m, Forall is_function (atoms m)) ms.

(** [line] is what [on_model] prints for [atom]. *)
Definition atom_line (atom : Symbol) (line : string) : Prop :=
  ∃ f args, atom = Function f args ∧
    line = "Atom with name " +:+ f +:+ " and arguments " +:+ format_list args
           +:+ " is true in the model: " +:+ str atom.

(** The search behind the output recorded in the notebook: one model, found
    satisfiable. *)
Definition recorded_search (c : Control) : list Model * SolveResult :=
  ([mkModel [Function "number" [Number 1]; Function "number" [Number 2];
             Function "number" [Number 3]; Function "right" [Number 1];
             Function "right" [Number 3]; Function "left" [Number 2]]],
   mkSolveResult (Some true)).

End ASP.


(** * Properties *)

(** ** The monad *)

Section monad_facts.

Context {St : Type}.

Lemma bind_inr {A B} (m : Py St A) (f : A → Py St B) s s' a :
  m s = (s', inr a) → (m ≫= f) s = f a s'.
Proof. intros E. unfold mbind, Py_bind. by rewrite E. Qed.

Lemma bind_inl {A B} (m : Py St A) (f : A → Py St B) s s' e :
  m s = (s', inl e) → (m ≫= f) s = (s', inl e).
Proof. intros E. unfold mbind, Py_bind. by rewrite E. Qed.

Lemma for_in_cons {A} (x : A) l (body : A → Py St unit) :
  for_in (x :: l) body = (body x ;; for_in l body).
Proof. reflexivity. Qed.

Context {X : Type} (proj : St → list X).

Lemma appends_ret {A} P (a : A) : appends proj P (mret a).
Proof. intros s. exists []. by rewrite app_nil_r. Qed.

Lemma appends_raise {A} P e : appends proj P (raise (A:=A) e).
Proof. intros s. exists []. by rewrite app_nil_r. Qed.

Lemma appends_gets {A} P (f : St → A) : appends proj P (gets f).
Proof. intros s. exists []. by rewrite app_nil_r. Qed.

Lemma appends_getitem {V} P (d : gmap Z V) k : appends proj P (getitem d k).
Proof. unfold getitem. destruct (d !! k); [apply appends_ret|apply appends_raise]. Qed.

Lemma appends_bind {A B} P (m : Py St A) (f : A → Py St B) :
  appends proj P m → (∀ a, appends proj P (f a)) → appends proj P (m ≫= f).
Proof.
  intros Hm Hf s. destruct (Hm s) as (l1 & E1 & F1).
  unfold exec in *. destruct (m s) as [s1 [e|a]] eqn:E.
  - rewrite (bind_inl _ _ _ _ _ E). eauto.
  - rewrite (bind_inr _ _ _ _ _ E).
    destruct (Hf a s1) as (l2 & E2 & F2). exists (l1 ++ l2). split.
    + unfold exec in E2. rewrite E2. simpl in E1. by rewrite E1, app_assoc.
    + by apply Forall_app.
Qed.

Lemma appends_for_in {A} P (l : list A) (body : A → Py St unit) :
  (∀ x, appends proj P (body x)) → appends proj P (for_in l body).
Proof.
  intros Hb. induction l as [|x l IH].
  - apply appends_ret.
  - rewrite for_in_cons. apply appends_bind; auto.
Qed.

Lemma appends_mono {A} (P Q : X → Prop) (m : Py St A) :
  (∀ x, P x → Q x) → appends proj P m → appends proj Q m.
Proof.
  intros HPQ Hm s. destruct (Hm s) as (l & E & F).
  exists l. split; [done|]. eapply Forall_impl; eauto.
Qed.

End monad_facts.

Section footprints.

Context {St X : Type} (proj : St → X).

Lemma preserves_ret {A} (a : A) : preserves proj (mret a).
Proof. by intros s. Qed.

Lemma preserves_raise {A} e : preserves proj (raise (A:=A) e).
Proof. by intros s. Qed.

Lemma preserves_gets {A} (f : St → A) : preserves proj (gets f).
Proof. by intros s. Qed.

Lemma preserves_bind {A B} (m : Py St A) (f : A → Py St B) :
  preserves proj m → (∀ a, preserves proj (f a)) → preserves proj (m ≫= f).
Proof.
  intros Hm Hf s. specialize (Hm s).
  unfold exec in *. destruct (m s) as [s1 [e|a]] eqn:E.
  - by rewrite (bind_inl _ _ _ _ _ E).
  - rewrite (bind_inr _ _ _ _ _ E). simpl in Hm. rewrite <- Hm. apply Hf.
Qed.

Lemma preserves_for_in {A} (l : list A) (body : A → Py St unit) :
  (∀ x, preserves proj (body x)) → preserves proj (for_in l body).
Proof.
  intros Hb. induction l as [|x l IH].
  - apply preserves_ret.
  - rewrite for_in_cons. apply preserves_bind; auto.
Qed.

End footprints.

Lemma preserves_appends {St X A} (proj : St → list X) P (m : Py St A) :
  preserves proj m → appends proj P m.
Proof. intros Hm s. exists []. by rewrite app_nil_r, Hm. Qed.

Lemma filter_none {X} (P : X → Prop) `{∀ x, Decision (P x)} (l : list X) :
  Forall (λ x, ¬ P x) l → filter P l = [].
Proof.
  induction 1 as [|x l Hx _ IH]; [done|].
  by rewrite filter_cons_False.
Qed.

Lemma times_called_app e l1 l2 :
  times_called e (l1 ++ l2) = times_called e l1 + times_called e l2.
Proof. unfold times_called. by rewrite filter_app, length_app. Qed.

(** Steps through the structure of a program to establish a footprint; the
    footprints of the library operations are taken from the hint database. *)
Create HintDb footprint.

Ltac footprint :=
  repeat first
    [ solve [auto with footprint nocore]
    | apply preserves_ret | apply preserves_raise | apply preserves_gets
    | apply appends_ret | apply appends_raise | apply appends_gets
    | apply appends_getitem
    | apply preserves_bind; [|intros ?]
    | apply appends_bind; [|intros ?]
    | apply preserves_for_in; intros ?
    | apply appends_for_in; intros ? ].

(** ** The 3-coloring notebook *)

Module CSP_spec.

Import CSP.
Local Open Scope Z_scope.

(** *** Cells 1 to 3 *)

Lemma declare_vars : (cell1 ;; cell2 ;; cell3) fresh_kernel = (declared, inr ()).
Proof. vm_compute. reflexivity. Qed.

Lemma lookup_declared i :
  vars declared !! i =
    if decide (1 ≤ i ≤ num_vertices) then Some (x_ i) else None.
Proof.
  unfold declared, num_vertices; simpl.
  destruct (decide (i = 4)) as [->|]; [by rewrite lookup_insert_eq|].
  rewrite lookup_insert_ne by done.
  destruct (decide (i = 3)) as [->|]; [by rewrite lookup_insert_eq|].
  rewrite lookup_insert_ne by done.
  destruct (decide (i = 2)) as [->|]; [by rewrite lookup_insert_eq|].
  rewrite lookup_insert_ne by done.
  destruct (decide (i = 1)) as [->|]; [by rewrite lookup_insert_eq|].
  rewrite lookup_insert_ne, lookup_empty by done.
  case_decide; [lia | done].
Qed.

Lemma x_domain i v : in_domain (x_ i) v ↔ v = 1 ∨ v = 2 ∨ v = 3.
Proof. unfold in_domain; simpl. lia. Qed.

Lemma x_registered i :
  1 ≤ i ≤ num_vertices → variables (model declared) !! Index (x_ i) = Some (x_ i).
Proof.
  unfold num_vertices. intros H.
  assert (i = 1 ∨ i = 2 ∨ i = 3 ∨ i = 4) as [->|[->|[->| ->]]] by lia;
    reflexivity.
Qed.

(** *** Cell 4, for any edge list and any dictionary *)

Lemma add_edge_constraint_ok k i j xi xj :
  vars k !! i = Some xi → vars k !! j = Some xj →
  add_edge_constraint (i, j) k =
    ({| model := mkCpModel (variables (model k))
                   (constraints (model k) ++ [NotEqual xi xj]);
        vars := vars k; solver := solver k; stdout := stdout k;
        calls := calls k ++ [CpModel_Add] |}, inr ()).
Proof.
  intros Hi Hj.
  unfold add_edge_constraint, getitem, gets, mbind, Py_bind.
  rewrite Hi, Hj. reflexivity.
Qed.

Lemma add_edge_constraints_ok es : ∀ k,
  (∀ i j, (i, j) ∈ es → is_Some (vars k !! i) ∧ is_Some (vars k !! j)) →
  ∃ cts,
    Forall2 (constraint_of_edge (vars k)) es cts ∧
    for_in es add_edge_constraint k =
      ({| model := mkCpModel (variables (model k)) (constraints (model k) ++ cts);
          vars := vars k; solver := solver k; stdout := stdout k;
          calls := calls k ++ replicate (length es) CpModel_Add |}, inr ()).
Proof.
  induction es as [|[i j] es IH]; intros k Hk.
  - exists []. split; [constructor|].
    destruct k as [[vs cs] d s o c]; simpl. by rewrite !app_nil_r.
  - destruct (Hk i j) as [[xi Hi] [xj Hj]]; [left|].
    set (k1 := {| model := mkCpModel (variables (model k))
                    (constraints (model k) ++ [NotEqual xi xj]);
                  vars := vars k; solver := solver k; stdout := stdout k;
                  calls := calls k ++ [CpModel_Add] |}).
    destruct (IH k1) as (cts & HF & E).
    { intros i' j' Hin. apply Hk. by right. }
    exists (NotEqual xi xj :: cts). split.
    + constructor; [by exists xi, xj | exact HF].
    + rewrite for_in_cons.
      rewrite (bind_inr _ _ _ _ _ (add_edge_constraint_ok k i j xi xj Hi Hj)).
      fold k1. rewrite E. simpl. by rewrite <- !app_assoc.
Qed.

Lemma constraints_hold_iff_proper d σ es cts :
  Forall2 (constraint_of_edge d) es cts →
  Forall (holds σ) cts ↔ proper es (color_of d σ).
Proof.
  induction 1 as [|[i j] ct es cts (xi & xj & Hi & Hj & ->) _ IH].
  - split; [|constructor]. intros _ i j Hin. by apply elem_of_nil in Hin.
  - simpl in Hi, Hj. rewrite Forall_cons, IH. split.
    + intros [Hne Hp] i' j' [Heq|Hin]%elem_of_cons; [|by apply Hp].
      injection Heq as -> ->. exists (σ (Index xi)), (σ (Index xj)).
      unfold color_of. by rewrite Hi, Hj.
    + intros Hp. split.
      * destruct (Hp i j) as (ci & cj & Hci & Hcj & Hne); [left|].
        unfold color_of in Hci, Hcj. rewrite Hi in Hci. rewrite Hj in Hcj.
        simpl in *. congruence.
      * intros i' j' Hin. apply Hp. by right.
Qed.

Lemma edges_in_range i j :
  (i, j) ∈ edges → 1 ≤ i ≤ num_vertices ∧ 1 ≤ j ≤ num_vertices.
Proof.
  unfold edges, num_vertices. intros Hin.
  repeat (apply elem_of_cons in Hin as [Heq|Hin];
          [injection Heq as -> ->; lia|]).
  by apply elem_of_nil in Hin.
Qed.

Lemma edges_declared i j :
  (i, j) ∈ edges →
  is_Some (vars declared !! i) ∧ is_Some (vars declared !! j).
Proof.
  intros [Hi Hj]%edges_in_range.
  rewrite !lookup_declared, !decide_True by done. eauto.
Qed.

Lemma build_built : build fresh_kernel = (built, inr ()).
Proof. vm_compute. reflexivity. Qed.

Lemma built_constraints :
  Forall2 (constraint_of_edge (vars built)) edges (constraints (model built)).
Proof.
  destruct (add_edge_constraints_ok edges declared edges_declared)
    as (cts & HF & E).
  assert (cell4 declared = (built, inr ())) as E' by (vm_compute; reflexivity).
  unfold cell4 in E'. rewrite E' in E.
  assert (constraints (model built) = cts) as ->; [|exact HF].
  apply (f_equal (λ r, constraints (model r.1))) in E. exact E.
Qed.

Lemma color_of_declared σ i :
  1 ≤ i ≤ num_vertices →
  color_of (vars built) σ i = Some (σ (Index (x_ i))).
Proof.
  intros Hi. unfold color_of. change (vars built) with (vars declared).
  by rewrite lookup_declared, decide_True.
Qed.

Lemma within_domains_iff_three_coloring σ :
  within_domains σ (model built)
  ↔ three_coloring num_vertices (color_of (vars built) σ).
Proof.
  unfold within_domains, three_coloring; simpl.
  rewrite !Forall_cons, Forall_nil. setoid_rewrite x_domain. split.
  - intros (H1 & H2 & H3 & H4 & _) i Hi.
    exists (σ (Index (x_ i))). split; [by apply color_of_declared|].
    unfold num_vertices in Hi.
    assert (i = 1 ∨ i = 2 ∨ i = 3 ∨ i = 4) as [->|[->|[->| ->]]] by lia;
      assumption.
  - intros H. repeat split.
    all: match goal with
         | |- context [x_ ?n] =>
             destruct (H n) as (c & Hc & Hr); [unfold num_vertices; lia|];
             rewrite color_of_declared in Hc by (unfold num_vertices; lia);
             by injection Hc as <-
         end.
Qed.

(** *** The claims on the instance *)

(** C6: the notebook encodes a graph on 4 vertices: [num_vertices] is 4 and
    both endpoints of every pair of the edge list lie between 1 and 4. *)
Theorem C6_four_vertex_graph :
  num_vertices = 4 ∧ Forall (λ e, 1 ≤ e.1 ≤ 4 ∧ 1 ≤ e.2 ≤ 4) edges.
Proof.
  split; [reflexivity|].
  unfold edges. repeat constructor; simpl; lia.
Qed.

(** C3: after cell 3 the keys of [vars] are exactly the vertex indices
    1..num_vertices; each key i holds a variable registered with the model,
    named x{i}, whose domain is {1,2,3}; different keys hold different
    variables, and the model has as many variables as there are vertices,
    one call of NewIntVar for each. *)
Theorem C3_one_variable_per_vertex :
  let k := exec (cell1 ;; cell2 ;; cell3) fresh_kernel in
  (∀ i, i ∈ dom (vars k) ↔ 1 ≤ i ≤ num_vertices) ∧
  (∀ i, 1 ≤ i ≤ num_vertices →
     ∃ x, vars k !! i = Some x ∧
          variables (model k) !! Index x = Some x ∧
          Name x = "x" +:+ format_int i ∧
          ∀ v, in_domain x v ↔ v = 1 ∨ v = 2 ∨ v = 3) ∧
  (∀ i j x, vars k !! i = Some x → vars k !! j = Some x → i = j) ∧
  length (variables (model k)) = Z.to_nat num_vertices ∧
  times_called CpModel_NewIntVar (calls k) = Z.to_nat num_vertices.
Proof.
  unfold exec. rewrite declare_vars. cbv zeta. change (_, _).1 with declared.
  split; [|split; [|split; [|split]]].
  - intros i. rewrite elem_of_dom, lookup_declared.
    case_decide; split; eauto; [by intros [? ?] | done].
  - intros i Hi. exists (x_ i). rewrite lookup_declared, decide_True by done.
    split; [done|]. split; [by apply x_registered|].
    split; [done|]. apply x_domain.
  - intros i j x Hi Hj. rewrite lookup_declared in Hi, Hj.
    repeat case_decide; try done.
    assert (Index (x_ i) = Index (x_ j)) as Hij by congruence.
    simpl in Hij. unfold num_vertices in *. lia.
  - reflexivity.
  - reflexivity.
Qed.

Lemma C3_witness :
  ∃ x, vars (exec (cell1 ;; cell2 ;; cell3) fresh_kernel) !! 2 = Some x ∧
       variables (model (exec (cell1 ;; cell2 ;; cell3) fresh_kernel)) !! Index x
         = Some x ∧
       Name x = "x2" ∧
       ∀ v, in_domain x v ↔ v = 1 ∨ v = 2 ∨ v = 3.
Proof.
  apply (proj1 (proj2 C3_one_variable_per_vertex) 2).
  unfold num_vertices. lia.
Defined.

(** C10: both endpoints of every pair of the edge list lie in
    1..num_vertices and are keys of [vars] when cell 4 starts, and cell 4 ends
    without an exception: none of its lookups [vars[i]], [vars[j]] raises
    KeyError. *)
Theorem C10_edge_lookups_succeed :
  let k := exec (cell1 ;; cell2 ;; cell3) fresh_kernel in
  (∀ i j, (i, j) ∈ edges →
     (1 ≤ i ≤ num_vertices ∧ 1 ≤ j ≤ num_vertices) ∧
     i ∈ dom (vars k) ∧ j ∈ dom (vars k)) ∧
  (cell4 k).2 = inr ().
Proof.
  unfold exec. rewrite declare_vars. cbv zeta. change (_, _).1 with declared.
  split.
  - intros i j Hin. split; [by apply edges_in_range|].
    rewrite !elem_of_dom. by apply edges_declared.
  - destruct (add_edge_constraints_ok edges declared edges_declared)
      as (cts & _ & E).
    unfold cell4. by rewrite E.
Qed.

Lemma C10_witness :
  (1 ≤ 2 ≤ num_vertices ∧ 1 ≤ 4 ≤ num_vertices) ∧
  2 ∈ dom (vars (exec (cell1 ;; cell2 ;; cell3) fresh_kernel)) ∧
  4 ∈ dom (vars (exec (cell1 ;; cell2 ;; cell3) fresh_kernel)).
Proof.
  apply (proj1 C10_edge_lookups_succeed 2 4).
  unfold edges. do 3 right. left.
Defined.

(** C4: the constraints of the model after cell 4 are, in the order of the
    edge list and one for one, the inequalities between the variables of the
    two endpoints of each pair; there is no other constraint, and Add was
    called once per pair. *)
Theorem C4_one_constraint_per_edge :
  let k := exec build fresh_kernel in
  Forall2 (constraint_of_edge (vars k)) edges (constraints (model k)) ∧
  times_called CpModel_Add (calls k) = length edges.
Proof.
  unfold exec. rewrite build_built. cbv zeta. change (_, _).1 with built.
  split; [apply built_constraints | reflexivity].
Qed.

(** C1: an assignment of the variables satisfies every constraint registered
    with the model iff the coloring it induces gives different colors to the
    two endpoints of every edge of the list; and it respects the domains of
    the variables iff that coloring uses the colors 1, 2, 3 on the vertices
    1..4.  So the solutions of the model are the proper 3-colorings. *)
Theorem C1_solutions_are_proper_colorings (σ : assignment) :
  let k := exec build fresh_kernel in
  (satisfies_constraints σ (model k) ↔ proper edges (color_of (vars k) σ)) ∧
  (within_domains σ (model k)
   ↔ three_coloring num_vertices (color_of (vars k) σ)).
Proof.
  unfold exec. rewrite build_built. cbv zeta. change (_, _).1 with built.
  split.
  - apply constraints_hold_iff_proper, built_constraints.
  - apply within_domains_iff_three_coloring.
Qed.

(** *** Cell 5 *)

Lemma notebook_solved search :
  notebook search fresh_kernel =
    report (response_status (search (model built))) (solved search).
Proof. unfold notebook. by rewrite (bind_inr _ _ _ _ _ build_built). Qed.

Lemma Value_appends_calls x :
  appends calls (λ e, e = CpSolver_Value) (Value x).
Proof.
  intros k. exists [CpSolver_Value]. split; [|by repeat constructor].
  unfold exec, Value, mbind, Py_bind, log, modify, gets; simpl.
  by destruct (solution (solver k) !! Index x).
Qed.

Lemma Value_appends_stdout P x : appends stdout P (Value x).
Proof.
  apply preserves_appends. intros k.
  unfold exec, Value, mbind, Py_bind, log, modify, gets; simpl.
  by destruct (solution (solver k) !! Index x).
Qed.

Lemma print_appends_calls P line : appends calls P (print line).
Proof. by apply preserves_appends. Qed.

Lemma print_appends_stdout (P : string → Prop) line :
  P line → appends stdout P (print line).
Proof. intros HP k. exists [line]. split; [done|]. by repeat constructor. Qed.

#[local] Hint Resolve Value_appends_calls Value_appends_stdout
  print_appends_calls : footprint.

Lemma print_vertex_appends_calls i :
  appends calls (λ e, e = CpSolver_Value) (print_vertex i).
Proof. unfold print_vertex. footprint. Qed.

Lemma print_vertex_appends_stdout i :
  appends stdout (λ line, ∃ c, line = vertex_line i c) (print_vertex i).
Proof.
  unfold print_vertex. footprint. apply print_appends_stdout. by eexists.
Qed.

Lemma vertex_line_not_verdict i c :
  vertex_line i c ≠ "The graph is not 3-colorable!".
Proof. unfold vertex_line. simpl. discriminate. Qed.

(** C2: the notebook prints the coloring only if Solve returned FEASIBLE:
    then the output is the line "The graph is 3-colorable:" followed by
    per-vertex lines; for every other status, OPTIMAL included, the output is
    the single line "The graph is not 3-colorable!" and Value is never
    called. *)
Theorem C2_coloring_printed_only_if_feasible (search : CpModel → CpSolver) :
  let k := exec (notebook search) fresh_kernel in
  let answer := response_status (search (model (exec build fresh_kernel))) in
  (answer = FEASIBLE ∧
   ∃ lines, stdout k = "The graph is 3-colorable:" :: lines ∧
            Forall (λ line, ∃ i c, line = vertex_line i c) lines)
  ∨
  (answer ≠ FEASIBLE ∧
   stdout k = ["The graph is not 3-colorable!"] ∧
   CpSolver_Value ∉ calls k).
Proof.
  unfold exec. rewrite build_built, notebook_solved. cbv zeta.
  change (_, _).1 with built at 1. change (built, _).1 with built.
  destruct (decide (response_status (search (model built)) = FEASIBLE))
    as [E|E].
  - left. split; [done|]. rewrite E. unfold report.
    rewrite decide_True by done.
    set (k1 := exec (print "The graph is 3-colorable:") (solved search)).
    assert (print "The graph is 3-colorable:" (solved search) = (k1, inr ()))
      as E1 by done.
    rewrite (bind_inr _ _ _ _ _ E1).
    destruct (appends_for_in stdout (λ line, ∃ i c, line = vertex_line i c)
                (range 1 (num_vertices + 1)) print_vertex) with (s := k1)
      as (lines & El & Fl).
    { intros i. eapply appends_mono; [|apply print_vertex_appends_stdout].
      intros line [c ->]. by exists i, c. }
    exists lines. split; [|done]. unfold exec in El. by rewrite El.
  - right. split; [done|]. unfold report. rewrite decide_False by done.
    split; [done|]. simpl.
    rewrite !elem_of_cons, elem_of_nil. intros Hin.
    repeat (destruct Hin as [Hin|Hin]; [discriminate|]). done.
Qed.

(** The case of C2 that the claim singles out: a solver that answers OPTIMAL,
    with a proper coloring in its response. *)
Example optimal_is_reported_not_colorable :
  stdout (exec (notebook (λ _, mkCpSolver OPTIMAL [1; 3; 2; 1])) fresh_kernel)
  = ["The graph is not 3-colorable!"].
Proof. reflexivity. Qed.

(** C7, at an input on which the notebook departs from it.  The solver
    answers OPTIMAL and its response is a solution of the model, a proper
    3-coloring with one value per variable: the solver has reported a
    solution.  The notebook prints no vertex line: its output is the single
    line "The graph is not 3-colorable!", and Value is never called. *)
Theorem C7_optimal_solution_is_not_printed :
  let m := model (exec build fresh_kernel) in
  let k := exec (notebook optimal_search) fresh_kernel in
  response_status (optimal_search m) = OPTIMAL ∧
  length (solution (optimal_search m)) = length (variables m) ∧
  solution_of (assignment_of (solution (optimal_search m))) m ∧
  stdout k = ["The graph is not 3-colorable!"] ∧
  CpSolver_Value ∉ calls k.
Proof.
  unfold exec. rewrite build_built. cbv zeta.
  change (built, _).1 with built.
  split; [reflexivity|]. split; [reflexivity|]. split; [split|split].
  - unfold within_domains; cbn [variables model built].
    rewrite !Forall_cons, Forall_nil. unfold in_domain.
    repeat split; by vm_compute.
  - unfold satisfies_constraints; cbn [constraints model built].
    rewrite !Forall_cons, Forall_nil.
    repeat split; by vm_compute.
  - reflexivity.
  - change (calls (notebook optimal_search fresh_kernel).1)
      with (calls (solved optimal_search)).
    cbn. rewrite !elem_of_cons, elem_of_nil. intros Hin.
    repeat (destruct Hin as [Hin|Hin]; [discriminate|]). done.
Qed.

Lemma report_appends_calls answer :
  appends calls (λ e, e = CpSolver_Value) (report answer).
Proof.
  unfold report. case_decide.
  - apply appends_bind; [apply print_appends_calls|].
    intros _. apply appends_for_in, print_vertex_appends_calls.
  - apply print_appends_calls.
Qed.

Lemma csp_notebook_calls search :
  ∃ l, calls (exec (notebook search) fresh_kernel) = calls (solved search) ++ l ∧
       Forall (λ e, e = CpSolver_Value) l.
Proof. unfold exec. rewrite notebook_solved. apply report_appends_calls. Qed.

(** The run recorded in the notebook. *)
Example csp_recorded_run :
  stdout (exec (notebook recorded_search) fresh_kernel)
  = ["The graph is 3-colorable:";
     "- Vertex 1 gets color 1";
     "- Vertex 2 gets color 3";
     "- Vertex 3 gets color 2";
     "- Vertex 4 gets color 1"].
Proof. reflexivity. Qed.

End CSP_spec.

(** ** The clingo notebook *)

Module ASP_spec.

Import ASP.
Local Open Scope Z_scope.

Lemma load_program : cell3 fresh_kernel = (loaded, inr ()).
Proof. reflexivity. Qed.

Lemma notebook_solving search :
  notebook search fresh_kernel =
    ((for_in (search grounded_control).1 on_model ;;
      modify (put_answer (search grounded_control).2)) ;; cell6) solving.
Proof.
  unfold notebook. rewrite (bind_inr _ _ _ _ _ load_program).
  unfold cell5, solve, set_solve_models, log, gets, modify, mbind, Py_bind, mret,
    Py_ret, solving, grounded_control; simpl.
  by destruct (for_in _ on_model _) as [k [e|[]]].
Qed.

(** *** Footprints of the callback and of the last cell *)

Lemma print_atom_preserves {X} (proj : kernel → X) atom :
  (∀ k line, proj (exec (print line) k) = proj k) →
  preserves proj (print_atom atom).
Proof. intros Hp k. destruct atom; [done|]. apply Hp. Qed.

Lemma on_model_appends_calls m :
  appends calls (λ e, e = Model_symbols) (on_model m).
Proof.
  unfold on_model. apply appends_bind.
  - intros k. exists [Model_symbols]. split; [done|]. by repeat constructor.
  - intros l. apply appends_for_in. intros atom.
    by apply preserves_appends, print_atom_preserves.
Qed.

Lemma on_model_preserves_control m : preserves control (on_model m).
Proof.
  unfold on_model. apply preserves_bind; [done|].
  intros l. apply preserves_for_in. intros atom.
  by apply print_atom_preserves.
Qed.

Lemma cell6_preserves {X} (proj : kernel → X) :
  (∀ k line, proj (exec (print line) k) = proj k) →
  preserves proj cell6.
Proof.
  intros Hp k. unfold cell6, exec, gets, mbind, Py_bind; simpl.
  destruct (answer k) as [r|]; [|done].
  case_decide; apply Hp.
Qed.

Lemma notebook_control search :
  control (exec (notebook search) fresh_kernel) = grounded_control.
Proof.
  unfold exec. rewrite notebook_solving.
  change grounded_control with (control solving) at 3.
  apply (preserves_bind control); [|intros ?; by apply cell6_preserves].
  apply preserves_bind; [|done].
  apply preserves_for_in, on_model_preserves_control.
Qed.

Lemma asp_notebook_calls search :
  ∃ l, calls (exec (notebook search) fresh_kernel) = calls solving ++ l ∧
       Forall (λ e, e = Model_symbols) l.
Proof.
  unfold exec. rewrite notebook_solving.
  apply (appends_bind calls).
  - apply appends_bind; [|intros ? k; exists []; by rewrite app_nil_r].
    apply appends_for_in, on_model_appends_calls.
  - intros ?. by apply preserves_appends, cell6_preserves.
Qed.

(** *** The callback on well-formed models *)

Lemma emit_emit l1 c1 l2 c2 k :
  emit l2 c2 (emit l1 c1 k) = emit (l1 ++ l2) (c1 ++ c2) k.
Proof. unfold emit; simpl. by rewrite <- !app_assoc. Qed.

Lemma emit_nil k : emit [] [] k = k.
Proof. destruct k. unfold emit; simpl. by rewrite !app_nil_r. Qed.

Lemma print_atoms_ok l : ∀ k,
  Forall is_function l →
  ∃ lines, Forall2 atom_line l lines ∧
           for_in l print_atom k = (emit lines [] k, inr ()).
Proof.
  induction l as [|atom l IH]; intros k Hl.
  - exists []. split; [constructor|]. by rewrite emit_nil.
  - apply Forall_cons in Hl as [(f & args & ->) Hl].
    set (line := "Atom with name " +:+ f +:+ " and arguments "
                 +:+ format_list args +:+ " is true in the model: "
                 +:+ str (Function f args)).
    destruct (IH (emit [line] [] k) Hl) as (lines & HF & E).
    exists (line :: lines). split.
    + constructor; [by exists f, args | done].
    + rewrite for_in_cons.
      assert (print_atom (Function f args) k = (emit [line] [] k, inr ()))
        as E1 by (unfold emit; by rewrite app_nil_r).
      by rewrite (bind_inr _ _ _ _ _ E1), E, emit_emit.
Qed.

Lemma on_model_ok m k :
  Forall is_function (atoms m) →
  ∃ lines, Forall2 atom_line (atoms m) lines ∧
           on_model m k = (emit lines [Model_symbols] k, inr ()).
Proof.
  intros Hm.
  destruct (print_atoms_ok (atoms m) (emit [] [Model_symbols] k) Hm)
    as (lines & HF & E).
  exists lines. split; [done|]. unfold on_model.
  assert (symbols m k = (emit [] [Model_symbols] k, inr (atoms m)))
    as E1 by (unfold emit; by rewrite app_nil_r).
  by rewrite (bind_inr _ _ _ _ _ E1), E, emit_emit.
Qed.

Lemma callbacks_ok ms : ∀ k,
  atoms_are_functions ms →
  ∃ lines, Forall2 atom_line (concat (atoms <$> ms)) lines ∧
           for_in ms on_model k =
             (emit lines (replicate (length ms) Model_symbols) k, inr ()).
Proof.
  induction ms as [|m ms IH]; intros k Hms.
  - exists []. split; [constructor|]. by rewrite emit_nil.
  - apply Forall_cons in Hms as [Hm Hms].
    destruct (on_model_ok m k Hm) as (l1 & HF1 & E1).
    destruct (IH (emit l1 [Model_symbols] k) Hms) as (l2 & HF2 & E2).
    exists (l1 ++ l2). split.
    + rewrite fmap_cons; simpl. by apply Forall2_app.
    + by rewrite for_in_cons, (bind_inr _ _ _ _ _ E1), E2, emit_emit.
Qed.

Lemma atom_line_not_verdict atom line :
  atom_line atom line →
  line ≠ "Found a model!" ∧ line ≠ "Did not find a model!".
Proof. intros (f & args & _ & ->). split; discriminate. Qed.

Lemma verdict_not_among lines atoms_ v :
  Forall2 atom_line atoms_ lines →
  v = "Found a model!" ∨ v = "Did not find a model!" →
  v ∉ lines.
Proof.
  intros HF Hv Hin. apply list_elem_of_lookup in Hin as [n Hn].
  destruct (Forall2_lookup_r _ _ _ _ _ HF Hn) as (atom & _ & Hline).
  apply atom_line_not_verdict in Hline as [? ?]. destruct Hv; congruence.
Qed.

(** *** The claims *)

(** C5: in the run of the notebook the control object receives one program
    part, by the single call of [add]; its program text is [asp_program],
    the five-line string constant of cell 2, character for character; the
    part grounded is that part. *)
Theorem C5_program_passed_verbatim (search : Control → list Model * SolveResult) :
  let k := exec (notebook search) fresh_kernel in
  programs (control k) = [("base", [], asp_program)] ∧
  grounded (control k) = [("base", [])] ∧
  times_called Control_add (calls k) = 1%nat ∧
  asp_program =
"#const k=3.
number(1..k).
left(X) :- not right(X), number(X).
right(X) :- not left(X), number(X).
:- right(2).".
Proof.
  cbv zeta. rewrite notebook_control.
  destruct (asp_notebook_calls search) as (l & -> & Hl).
  repeat split. rewrite times_called_app. unfold times_called at 2.
  rewrite filter_none; [done|].
  eapply Forall_impl; [exact Hl|]. by intros e ->.
Qed.

(** C9: when the models passed to the callback are made of atoms, the last
    line of the output is "Found a model!" if the [satisfiable] attribute of
    the result of [solve] is [True], and "Did not find a model!" if it is
    [False] or [None]; the lines before it are those of the callback, so
    "Found a model!" is printed iff the attribute equals [True]. *)
Theorem C9_found_iff_satisfiable_true
    (search : Control → list Model * SolveResult) :
  let ms := (search grounded_control).1 in
  let r := (search grounded_control).2 in
  let out := stdout (exec (notebook search) fresh_kernel) in
  atoms_are_functions ms →
  ("Found a model!" ∈ out ↔ satisfiable r = Some true) ∧
  ("Did not find a model!" ∈ out ↔
     satisfiable r = Some false ∨ satisfiable r = None) ∧
  ∃ lines,
    Forall2 atom_line (concat (atoms <$> ms)) lines ∧
    out = lines ++ [match satisfiable r with
                    | Some true => "Found a model!"
                    | Some false | None => "Did not find a model!"
                    end].
Proof.
  cbv zeta. intros Hms. unfold exec. rewrite notebook_solving.
  destruct (callbacks_ok _ solving Hms) as (lines & HF & E).
  rewrite (bind_inr _ _ _ _ _ (bind_inr _ _ _ _ _ E)).
  pose proof (verdict_not_among lines _ "Found a model!" HF
                (or_introl eq_refl)) as Hf.
  pose proof (verdict_not_among lines _ "Did not find a model!" HF
                (or_intror eq_refl)) as Hd.
  unfold cell6, gets, mbind, Py_bind; simpl.
  destruct (satisfiable (search grounded_control).2) as [[|]|]; simpl;
    rewrite !elem_of_app, !list_elem_of_singleton;
    (split; [|split; [|by exists lines]]);
    intuition (done || discriminate).
Qed.

Lemma C9_witness :
  ("Found a model!" ∈ stdout (exec (notebook recorded_search) fresh_kernel)
   ↔ Some true = Some true) ∧
  ("Did not find a model!" ∈ stdout (exec (notebook recorded_search) fresh_kernel)
   ↔ Some true = Some false ∨ Some true = None) ∧
  ∃ lines,
    Forall2 atom_line
      (concat (atoms <$> (recorded_search grounded_control).1)) lines ∧
    stdout (exec (notebook recorded_search) fresh_kernel)
    = lines ++ ["Found a model!"].
Proof.
  apply (C9_found_iff_satisfiable_true recorded_search).
  repeat constructor; by eexists _, _.
Defined.

(** The run recorded in the notebook. *)
Example asp_recorded_run :
  stdout (exec (notebook recorded_search) fresh_kernel)
  = ["Atom with name number and arguments [1] is true in the model: number(1)";
     "Atom with name number and arguments [2] is true in the model: number(2)";
     "Atom with name number and arguments [3] is true in the model: number(3)";
     "Atom with name right and arguments [1] is true in the model: right(1)";
     "Atom with name right and arguments [3] is true in the model: right(3)";
     "Atom with name left and arguments [2] is true in the model: left(2)";
     "Found a model!"].
Proof. reflexivity. Qed.

End ASP_spec.

(** ** Both notebooks: the calls into the libraries *)

Lemma solver_entry_points_app_reads log l :
  Forall (λ e, role_of e = reads_result) l →
  solver_entry_points (log ++ l) = solver_entry_points log.
Proof.
  intros Hl. unfold solver_entry_points.
  rewrite filter_app, (filter_none _ l), app_nil_r; [done|].
  eapply Forall_impl; [exact Hl|]. intros e ->. discriminate.
Qed.



(** * Beyond the instance of the notebook *)

(** ** Loops *)

Section loops.

Context {St A : Type} (body : A → Py St unit).

Lemma for_in_step x l s s1 :
  body x s = (s1, inr ()) → for_in (x :: l) body s = for_in l body s1.
Proof. intros E. by rewrite for_in_cons, (bind_inr _ _ _ _ _ E). Qed.

Lemma for_in_stop x l s s1 e :
  body x s = (s1, inl e) → for_in (x :: l) body s = (s1, inl e).
Proof. intros E. by rewrite for_in_cons, (bind_inl _ _ _ _ _ E). Qed.

Lemma for_in_app l1 l2 s s1 :
  for_in l1 body s = (s1, inr ()) →
  for_in (l1 ++ l2) body s = for_in l2 body s1.
Proof.
  revert s. induction l1 as [|x l1 IH]; intros s E.
  - by injection E as ->.
  - change ((x :: l1) ++ l2) with (x :: (l1 ++ l2)).
    rewrite for_in_cons in E |- *. unfold mbind, Py_bind in *.
    destruct (body x s) as [s' [e|[]]]; [done|]. by apply IH.
Qed.

End loops.

(** ** The 3-coloring notebook on any graph *)

Module CSP_graphs.

Import CSP.
Local Open Scope Z_scope.

Lemma notebook_instance search :
  notebook search = notebook_on num_vertices edges search.
Proof.
  unfold notebook, notebook_on, build, build_on, cell5, cell5_on,
    cell3, cell3_on, cell4, cell4_on, report, report_on.
  exact eq_refl.
Qed.

(** *** Cell 3 *)

Lemma new_vertex_var_run i k :
  new_vertex_var i k =
    ({| model := mkCpModel
                   (variables (model k)
                    ++ [fresh_var (length (variables (model k))) i])
                   (constraints (model k));
        vars := <[i := fresh_var (length (variables (model k))) i]> (vars k);
        solver := solver k; stdout := stdout k;
        calls := calls k ++ [CpModel_NewIntVar] |}, inr ()).
Proof. reflexivity. Qed.

Lemma declare_loop l :
  NoDup l → ∀ k, ∃ k',
    for_in l new_vertex_var k = (k', inr ()) ∧
    variables (model k') =
      variables (model k)
      ++ imap (λ p i, fresh_var (length (variables (model k)) + p) i) l ∧
    constraints (model k') = constraints (model k) ∧
    solver k' = solver k ∧
    stdout k' = stdout k ∧
    calls k' = calls k ++ replicate (length l) CpModel_NewIntVar ∧
    (∀ p i, l !! p = Some i →
       vars k' !! i = Some (fresh_var (length (variables (model k)) + p) i)) ∧
    (∀ i, i ∉ l → vars k' !! i = vars k !! i).
Proof.
  induction 1 as [|i0 l Hi0 Hl IH]; intros k.
  - exists k. rewrite !app_nil_r. repeat split; done.
  - destruct (IH (new_vertex_var i0 k).1)
      as (k' & E & Hv & Hc & Hs & Ho & Hcalls & Hnew & Hold).
    rewrite new_vertex_var_run in E, Hv, Hc, Hs, Ho, Hcalls, Hnew, Hold.
    cbn [fst model vars solver stdout calls variables constraints]
      in E, Hv, Hc, Hs, Ho, Hcalls, Hnew, Hold.
    rewrite length_app in Hv, Hnew. cbn [length] in Hv, Hnew.
    exists k'. split.
    { by rewrite (for_in_step _ _ _ _ _ (new_vertex_var_run i0 k)). }
    split.
    { rewrite Hv, <- app_assoc, imap_cons. cbn [app]. do 2 f_equal.
      - f_equal. lia.
      - apply imap_ext. intros p i _. cbn. f_equal. lia. }
    do 3 (split; [done|]).
    split; [by rewrite Hcalls, <- app_assoc|].
    split.
    + intros [|p] i Hp; cbn in Hp.
      * injection Hp as <-. rewrite Hold by done.
        rewrite lookup_insert_eq. do 2 f_equal. lia.
      * rewrite (Hnew p i Hp). do 2 f_equal. lia.
    + intros i [Hne Hni]%not_elem_of_cons.
      by rewrite Hold, lookup_insert_ne.
Qed.

Lemma range_from_1 n : range 1 (n + 1) = seqZ 1 n.
Proof. unfold range. f_equal. lia. Qed.

Lemma cell3_on_run n k :
  ∃ k',
    cell3_on n k = (k', inr ()) ∧
    variables (model k') =
      variables (model k)
      ++ imap (λ p i, fresh_var (length (variables (model k)) + p) i)
           (seqZ 1 n) ∧
    constraints (model k') = constraints (model k) ∧
    solver k' = solver k ∧
    stdout k' = stdout k ∧
    calls k' = calls k ++ replicate (Z.to_nat n) CpModel_NewIntVar ∧
    ∀ i, vars k' !! i =
           if decide (1 ≤ i ≤ n)
           then Some (fresh_var (length (variables (model k)) + Z.to_nat (i - 1)) i)
           else None.
Proof.
  destruct (declare_loop (seqZ 1 n) (NoDup_seqZ 1 n) (put_vars ∅ k))
    as (k' & E & Hv & Hc & Hs & Ho & Hcalls & Hnew & Hold).
  exists k'. unfold cell3_on. rewrite range_from_1.
  split; [exact E|]. split; [exact Hv|]. do 3 (split; [done|]).
  split; [by rewrite Hcalls, length_seqZ|].
  intros i. case_decide as Hi.
  - apply Hnew. rewrite lookup_seqZ_lt by lia. f_equal. lia.
  - rewrite Hold; [done|]. rewrite elem_of_seqZ. lia.
Qed.

(** From any state of the kernel and for any [n], cells 1 to 3 end without
    an exception and leave a dictionary whose keys are exactly the integers
    from 1 to [n] (none if [n] is not positive); each key [i] holds the
    variable of index [i-1] of the model, registered there, named x{i} and
    with the domain {1,2,3}; different keys hold different variables, and
    the model has as many variables as there are keys. *)
Theorem cells_1_to_3_declare_one_variable_per_vertex n k :
  let k' := exec (cell1 ;; cell2 ;; cell3_on n) k in
  ((cell1 ;; cell2 ;; cell3_on n) k).2 = inr () ∧
  (∀ i, i ∈ dom (vars k') ↔ 1 ≤ i ≤ n) ∧
  (∀ i, 1 ≤ i ≤ n →
     ∃ x, vars k' !! i = Some x ∧
          variables (model k') !! Index x = Some x ∧
          Index x = Z.to_nat (i - 1) ∧
          Name x = "x" +:+ format_int i ∧
          ∀ v, in_domain x v ↔ v = 1 ∨ v = 2 ∨ v = 3) ∧
  (∀ i j x, vars k' !! i = Some x → vars k' !! j = Some x → i = j) ∧
  length (variables (model k')) = Z.to_nat n.
Proof.
  set (k1 := exec cell1 k).
  destruct (cell3_on_run n k1) as (k' & E & Hv & _ & _ & _ & _ & Hd).
  assert (model k1 = mkCpModel [] []) as Hm1 by done.
  rewrite Hm1 in Hv, Hd. cbn in Hv, Hd.
  assert ((cell1 ;; cell2 ;; cell3_on n) k = (k', inr ())) as E'.
  { assert (cell1 k = (k1, inr ())) as E1 by done.
    assert (cell2 k1 = (k1, inr ())) as E2 by done.
    by rewrite (bind_inr _ _ _ _ _ E1), (bind_inr _ _ _ _ _ E2). }
  unfold exec. rewrite E'. cbn [fst snd].
  split; [done|]. split; [|split; [|split]].
  - intros i. rewrite elem_of_dom, Hd.
    case_decide; split; eauto; [by intros [? ?] | done].
  - intros i Hi. eexists. rewrite Hd, decide_True by done.
    split; [done|]. split; [|split; [done|split; [done|]]].
    + cbn [Index fresh_var]. rewrite Hv.
      rewrite list_lookup_imap, lookup_seqZ_lt by lia.
      cbn. do 2 f_equal; lia.
    + intros v. unfold in_domain; cbn. lia.
  - intros i j x Hi Hj. rewrite Hd in Hi, Hj.
    repeat case_decide; try done.
    assert (Index (fresh_var (Z.to_nat (i - 1)) i)
            = Index (fresh_var (Z.to_nat (j - 1)) j)) as Hij by congruence.
    cbn in Hij. lia.
  - by rewrite Hv, length_imap, length_seqZ.
Qed.

Lemma cells_1_to_3_witness :
  ∃ x, vars (exec (cell1 ;; cell2 ;; cell3_on 2) built) !! 2 = Some x ∧
       variables (model (exec (cell1 ;; cell2 ;; cell3_on 2) built)) !! Index x
         = Some x ∧
       Index x = 1%nat ∧
       Name x = "x2" ∧
       ∀ v, in_domain x v ↔ v = 1 ∨ v = 2 ∨ v = 3.
Proof.
  apply (proj1 (proj2 (proj2
           (cells_1_to_3_declare_one_variable_per_vertex 2 built))) 2).
  lia.
Defined.

(** Cell 3 only adds to the model: the variables that the model had stay
    where they are, [n] new ones follow them (none if [n] is not positive),
    with one call of NewIntVar for each; the constraints and the output are
    left alone.  The new dictionary refers to the new variables only, so the
    variables of an earlier run of the cell stay in the model without a
    key. *)
Theorem cell3_accumulates_variables n k :
  let k' := exec (cell3_on n) k in
  take (length (variables (model k))) (variables (model k'))
    = variables (model k) ∧
  length (variables (model k'))
    = (length (variables (model k)) + Z.to_nat n)%nat ∧
  constraints (model k') = constraints (model k) ∧
  stdout k' = stdout k ∧
  calls k' = calls k ++ replicate (Z.to_nat n) CpModel_NewIntVar ∧
  (∀ i x, vars k' !! i = Some x →
          (length (variables (model k)) ≤ Index x)%nat).
Proof.
  destruct (cell3_on_run n k) as (k' & E & Hv & Hc & _ & Ho & Hcalls & Hd).
  unfold exec. rewrite E. cbn [fst].
  split; [by rewrite Hv, take_app_length|].
  split; [by rewrite Hv, length_app, length_imap, length_seqZ|].
  do 3 (split; [done|]).
  intros i x Hx. rewrite Hd in Hx. case_decide; [|done].
  injection Hx as <-. cbn. lia.
Qed.

Lemma cell3_accumulates_witness :
  (length (variables (model declared)) ≤ 6)%nat.
Proof.
  apply (proj2 (proj2 (proj2 (proj2 (proj2
          (cell3_accumulates_variables 3 declared))))) 3 (fresh_var 6 3)).
  reflexivity.
Defined.

(** *** Cell 4 *)

Lemma cell4_on_run es k :
  (∀ i j, (i, j) ∈ es → i ∈ dom (vars k) ∧ j ∈ dom (vars k)) →
  ∃ cts, Forall2 (constraint_of_edge (vars k)) es cts ∧
         cell4_on es k = (constrained cts k, inr ()).
Proof.
  intros Hk.
  destruct (CSP_spec.add_edge_constraints_ok es k) as (cts & HF & E).
  { intros i j Hin. rewrite <- !elem_of_dom. by apply Hk. }
  exists cts. split; [done|]. unfold cell4_on, constrained. rewrite E.
  by rewrite (Forall2_length _ _ _ HF).
Qed.

(** On any edge list and in any state of the kernel in which both endpoints
    of every edge are keys of [vars], cell 4 ends without an exception; it
    appends to the constraints of the model one inequality per edge, in the
    order of the list (an edge listed twice is constrained twice), calls Add
    once per edge, and changes nothing else. *)
Theorem cell4_registers_each_edge es k :
  (∀ i j, (i, j) ∈ es → i ∈ dom (vars k) ∧ j ∈ dom (vars k)) →
  ∃ cts, Forall2 (constraint_of_edge (vars k)) es cts ∧
         cell4_on es k = (constrained cts k, inr ()).
Proof. apply cell4_on_run. Qed.

Lemma cell4_registers_witness :
  ∃ cts, Forall2 (constraint_of_edge (vars declared)) [(1, 2); (1, 2)] cts ∧
         cell4_on [(1, 2); (1, 2)] declared = (constrained cts declared, inr ()).
Proof.
  apply (cell4_registers_each_edge [(1, 2); (1, 2)] declared).
  intros i j Hin.
  repeat (apply elem_of_cons in Hin as [Heq|Hin];
          [injection Heq as -> ->; split; apply elem_of_dom; by eexists|]).
  by apply elem_of_nil in Hin.
Defined.

Lemma cell4_on_stop es1 i j es2 k :
  (∀ a b, (a, b) ∈ es1 → a ∈ dom (vars k) ∧ b ∈ dom (vars k)) →
  i ∉ dom (vars k) ∨ j ∉ dom (vars k) →
  ∃ cts, Forall2 (constraint_of_edge (vars k)) es1 cts ∧
         cell4_on (es1 ++ (i, j) :: es2) k =
           (constrained cts k,
            inl (KeyError (if decide (i ∈ dom (vars k)) then j else i))).
Proof.
  intros Hes1 Hij.
  destruct (cell4_on_run es1 k Hes1) as (cts & HF & E).
  exists cts. split; [done|]. unfold cell4_on in *.
  rewrite (for_in_app _ _ _ _ _ E). apply for_in_stop.
  unfold add_edge_constraint, getitem, gets, mbind, Py_bind.
  cbn [vars constrained].
  case_decide as Hi.
  - destruct Hij as [Hni|Hj]; [done|].
    apply elem_of_dom in Hi as [xi Hxi]. apply not_elem_of_dom in Hj.
    by rewrite Hxi, Hj.
  - apply not_elem_of_dom in Hi. by rewrite Hi.
Qed.

(** When an edge has an endpoint that is not a key of [vars], cell 4 stops
    at the first such edge with KeyError, for the first endpoint if it is
    missing and else for the second.  The constraints of the edges before it
    stay registered; nothing is registered for that edge or for those after
    it. *)
Theorem cell4_stops_at_first_missing_key es1 i j es2 k :
  (∀ a b, (a, b) ∈ es1 → a ∈ dom (vars k) ∧ b ∈ dom (vars k)) →
  i ∉ dom (vars k) ∨ j ∉ dom (vars k) →
  ∃ cts, Forall2 (constraint_of_edge (vars k)) es1 cts ∧
         cell4_on (es1 ++ (i, j) :: es2) k =
           (constrained cts k,
            inl (KeyError (if decide (i ∈ dom (vars k)) then j else i))).
Proof. apply cell4_on_stop. Qed.


Lemma cell4_stops_witness :
  ∃ cts, Forall2 (constraint_of_edge (vars declared)) [(1, 2)] cts ∧
         cell4_on ([(1, 2)] ++ (2, 7) :: [(3, 4)]) declared =
           (constrained cts declared, inl (KeyError 7)).
Proof.
  apply (cell4_stops_at_first_missing_key [(1, 2)] 2 7 [(3, 4)] declared).
  - intros a b Hin. apply list_elem_of_singleton in Hin.
    injection Hin as -> ->. split; apply elem_of_dom; by eexists.
  - right. apply not_elem_of_dom. reflexivity.
Defined.

(** *** Cells 1 to 4 *)

Lemma build_on_run n es k :
  endpoints_in_range n es →
  ∃ k' cts,
    build_on n es k = (k', inr ()) ∧
    model k' = mkCpModel (imap fresh_var (seqZ 1 n)) cts ∧
    Forall2 (constraint_of_edge (vars k')) es cts ∧
    (∀ i, vars k' !! i =
            if decide (1 ≤ i ≤ n)
            then Some (fresh_var (Z.to_nat (i - 1)) i) else None) ∧
    solver k' = solver k ∧
    stdout k' = stdout k ∧
    calls k' = calls k ++ cp_model_CpModel ::
                 replicate (Z.to_nat n) CpModel_NewIntVar
                 ++ replicate (length es) CpModel_Add.
Proof.
  intros Hes. set (k1 := exec cell1 k).
  destruct (cell3_on_run n k1) as (k3 & E3 & Hv & Hc & Hs & Ho & Hcalls & Hd).
  destruct (cell4_on_run es k3) as (cts & HF & E4).
  { intros i j [Hi Hj]%Hes. rewrite !elem_of_dom, !Hd, !decide_True by done.
    eauto. }
  exists (constrained cts k3), cts. split.
  { unfold build_on.
    assert (cell1 k = (k1, inr ())) as E1 by done.
    assert (cell2 k1 = (k1, inr ())) as E2 by done.
    by rewrite (bind_inr _ _ _ _ _ E1), (bind_inr _ _ _ _ _ E2),
      (bind_inr _ _ _ _ _ E3). }
  assert (model k1 = mkCpModel [] []) as Hm1 by done.
  rewrite Hm1 in Hv, Hc, Hd. cbn in Hv, Hc, Hd.
  unfold constrained; cbn [model vars solver stdout calls].
  split; [rewrite Hv, Hc; reflexivity|].
  split; [done|]. split; [exact Hd|].
  split; [exact Hs|]. split; [exact Ho|].
  rewrite Hcalls, <- (Forall2_length _ _ _ HF).
  change (calls k1) with (calls k ++ [cp_model_CpModel]).
  rewrite <- !app_assoc. reflexivity.
Qed.

Lemma color_of_built (d : gmap Z IntVar) n σ i :
  (∀ i, d !! i = if decide (1 ≤ i ≤ n)
                 then Some (fresh_var (Z.to_nat (i - 1)) i) else None) →
  1 ≤ i ≤ n → color_of d σ i = Some (σ (Z.to_nat (i - 1))).
Proof. intros Hd Hi. unfold color_of. by rewrite Hd, decide_True. Qed.

Lemma domains_iff_three_coloring (d : gmap Z IntVar) n σ cts :
  (∀ i, d !! i = if decide (1 ≤ i ≤ n)
                 then Some (fresh_var (Z.to_nat (i - 1)) i) else None) →
  within_domains σ (mkCpModel (imap fresh_var (seqZ 1 n)) cts)
  ↔ three_coloring n (color_of d σ).
Proof.
  intros Hd. unfold within_domains, three_coloring. cbn [variables].
  rewrite Forall_lookup. split.
  - intros H i Hi. exists (σ (Z.to_nat (i - 1))).
    split; [by apply (color_of_built d n)|].
    specialize (H (Z.to_nat (i - 1)) (fresh_var (Z.to_nat (i - 1)) i)).
    unfold in_domain in H. cbn in H.
    assert (1 ≤ σ (Z.to_nat (i - 1)) ≤ 3); [|lia]. apply H.
    rewrite list_lookup_imap, lookup_seqZ_lt by lia. cbn.
    do 2 f_equal. lia.
  - intros H p x Hx. rewrite list_lookup_imap in Hx.
    destruct (seqZ 1 n !! p) as [i|] eqn:Hp; [|done].
    injection Hx as <-. apply lookup_seqZ in Hp as [-> Hp].
    destruct (H (1 + Z.of_nat p)) as (c & Hc & Hr); [lia|].
    rewrite (color_of_built d n) in Hc by (done || lia).
    injection Hc as <-. replace (Z.to_nat (1 + Z.of_nat p - 1)) with p in Hr by lia.
    unfold in_domain. cbn. lia.
Qed.

(** For every graph whose edges join vertices in 1..n, and from any state of
    the kernel, cells 1 to 4 end without an exception and leave a model whose
    solutions are the proper 3-colorings of the graph: an assignment
    satisfies the constraints iff the coloring it induces through [vars]
    differs on the two endpoints of every edge, and it respects the domains
    iff that coloring gives one of the colors 1, 2, 3 to each vertex. *)
Theorem model_solutions_are_proper_colorings n es k σ :
  endpoints_in_range n es →
  let k' := exec (build_on n es) k in
  (build_on n es k).2 = inr () ∧
  (satisfies_constraints σ (model k') ↔ proper es (color_of (vars k') σ)) ∧
  (within_domains σ (model k') ↔ three_coloring n (color_of (vars k') σ)).
Proof.
  intros Hes.
  destruct (build_on_run n es k Hes) as (k' & cts & E & Hm & HF & Hd & _).
  unfold exec. rewrite E. cbn [fst snd]. split; [done|]. split.
  - apply CSP_spec.constraints_hold_iff_proper.
    unfold satisfies_constraints. by rewrite Hm.
  - rewrite Hm. by apply domains_iff_three_coloring.
Qed.

Lemma path_in_range : endpoints_in_range 3 [(1, 2); (2, 3)].
Proof.
  intros i j Hin.
  repeat (apply elem_of_cons in Hin as [Heq|Hin];
          [injection Heq as -> ->; lia|]).
  by apply elem_of_nil in Hin.
Qed.

Lemma model_solutions_witness :
  (build_on 3 [(1, 2); (2, 3)] fresh_kernel).2 = inr () ∧
  (satisfies_constraints (λ p, Z.of_nat p)
     (model (exec (build_on 3 [(1, 2); (2, 3)]) fresh_kernel))
   ↔ proper [(1, 2); (2, 3)]
       (color_of (vars (exec (build_on 3 [(1, 2); (2, 3)]) fresh_kernel))
          (λ p, Z.of_nat p))) ∧
  (within_domains (λ p, Z.of_nat p)
     (model (exec (build_on 3 [(1, 2); (2, 3)]) fresh_kernel))
   ↔ three_coloring 3
       (color_of (vars (exec (build_on 3 [(1, 2); (2, 3)]) fresh_kernel))
          (λ p, Z.of_nat p))).
Proof.
  apply (model_solutions_are_proper_colorings 3 [(1, 2); (2, 3)] fresh_kernel
           (λ p, Z.of_nat p)).
  exact path_in_range.
Defined.

(** For every graph whose edges join vertices in 1..n, the model that cells
    1 to 4 build has a solution iff the graph has a proper coloring with the
    colors 1, 2, 3: the question that the notebook puts to the solver is the
    3-coloring problem of the graph. *)
Theorem model_satisfiable_iff_colorable n es k :
  endpoints_in_range n es →
  (∃ σ, solution_of σ (model (exec (build_on n es) k))) ↔ colorable n es.
Proof.
  intros Hes.
  destruct (build_on_run n es k Hes) as (k' & cts & E & Hm & HF & Hd & _).
  unfold exec. rewrite E. cbn [fst]. unfold solution_of, colorable.
  pose proof (λ σ, CSP_spec.constraints_hold_iff_proper (vars k') σ es cts HF)
    as Hcs.
  pose proof (λ σ, domains_iff_three_coloring (vars k') n σ cts Hd) as Hds.
  unfold satisfies_constraints. rewrite Hm. cbn [constraints]. split.
  - intros (σ & Hdom & Hct). apply Hds in Hdom. apply Hcs in Hct.
    exists (λ i, σ (Z.to_nat (i - 1))). split.
    + intros i Hi. destruct (Hdom i Hi) as (c & Hc & Hr).
      rewrite (color_of_built _ n) in Hc by done. by injection Hc as <-.
    + intros i j Hin. destruct (Hes i j Hin) as [Hi Hj].
      destruct (Hct i j Hin) as (ci & cj & Hci & Hcj & Hne).
      rewrite (color_of_built _ n) in Hci, Hcj by done. congruence.
  - intros (c & Hdom & Hct). exists (λ p, c (Z.of_nat p + 1)).
    assert (∀ i, 1 ≤ i ≤ n → Z.of_nat (Z.to_nat (i - 1)) + 1 = i) as Hid
      by (intros; lia).
    split.
    + apply Hds. intros i Hi. exists (c i).
      rewrite (color_of_built _ n), Hid by done. split; [done|]. by apply Hdom.
    + apply Hcs. intros i j Hin. destruct (Hes i j Hin) as [Hi Hj].
      exists (c i), (c j). rewrite !(color_of_built _ n), !Hid by done.
      split; [done|]. split; [done|]. by apply Hct.
Qed.

Lemma model_satisfiable_witness :
  (∃ σ, solution_of σ (model (exec (build_on 3 [(1, 2); (2, 3)]) fresh_kernel)))
  ↔ colorable 3 [(1, 2); (2, 3)].
Proof.
  apply (model_satisfiable_iff_colorable 3 [(1, 2); (2, 3)] fresh_kernel).
  exact path_in_range.
Defined.

(** An edge from a vertex to itself is encoded as the inequality of a
    variable with itself: the model built for such a graph has no solution,
    so a sound solver cannot answer FEASIBLE for it. *)
Theorem self_loop_makes_model_unsatisfiable n es k i :
  endpoints_in_range n es →
  (i, i) ∈ es →
  ¬ ∃ σ, satisfies_constraints σ (model (exec (build_on n es) k)).
Proof.
  intros Hes Hin [σ Hσ].
  destruct (build_on_run n es k Hes) as (k' & cts & E & Hm & HF & _).
  unfold exec in Hσ. rewrite E in Hσ. cbn [fst] in Hσ.
  unfold satisfies_constraints in Hσ. rewrite Hm in Hσ. cbn in Hσ.
  apply (CSP_spec.constraints_hold_iff_proper (vars k') σ es cts HF) in Hσ.
  destruct (Hσ i i Hin) as (ci & cj & Hci & Hcj & Hne). congruence.
Qed.

Lemma self_loop_witness :
  ¬ ∃ σ, satisfies_constraints σ
           (model (exec (build_on 2 [(1, 2); (2, 2)]) fresh_kernel)).
Proof.
  apply (self_loop_makes_model_unsatisfiable 2 [(1, 2); (2, 2)] fresh_kernel 2).
  - intros i j Hin.
    repeat (apply elem_of_cons in Hin as [Heq|Hin];
            [injection Heq as -> ->; lia|]).
    by apply elem_of_nil in Hin.
  - right. left.
Defined.

(** Cells 1 to 4 start from scratch: for any graph, the model, the
    dictionary and the outcome (normal end or KeyError) that they produce do
    not depend on what the kernel held before, so a second run of the
    notebook in the same kernel builds the same instance as the first. *)
Theorem build_ignores_earlier_state n es k1 k2 :
  same_instance (exec (build_on n es) k1) (exec (build_on n es) k2) ∧
  (build_on n es k1).2 = (build_on n es k2).2.
Proof.
  assert (∀ {A} (body : A → Py kernel unit) l,
            (∀ x a b, same_instance a b →
               same_instance (body x a).1 (body x b).1 ∧
               (body x a).2 = (body x b).2) →
            ∀ a b, same_instance a b →
               same_instance (for_in l body a).1 (for_in l body b).1 ∧
               (for_in l body a).2 = (for_in l body b).2) as Hloop.
  { intros A body l Hbody. induction l as [|x l IH]; intros a b Hab; [done|].
    rewrite !for_in_cons. unfold mbind, Py_bind.
    destruct (Hbody x a b Hab) as [Hs Hr].
    destruct (body x a) as [a' [e|[]]], (body x b) as [b' [e'|[]]];
      cbn in Hs, Hr; try done. by apply IH. }
  assert (∀ i a b, same_instance a b →
            same_instance (new_vertex_var i a).1 (new_vertex_var i b).1 ∧
            (new_vertex_var i a).2 = (new_vertex_var i b).2) as Hvar.
  { intros i a b [Hm Hv]. rewrite !new_vertex_var_run.
    unfold same_instance; cbn. by rewrite Hm, Hv. }
  assert (∀ e a b, same_instance a b →
            same_instance (add_edge_constraint e a).1 (add_edge_constraint e b).1 ∧
            (add_edge_constraint e a).2 = (add_edge_constraint e b).2) as Hedge.
  { intros [i j] a b [Hm Hv].
    unfold add_edge_constraint, getitem, gets, mbind, Py_bind. rewrite Hv.
    destruct (vars b !! i) as [xi|]; [|done].
    destruct (vars b !! j) as [xj|]; [|done].
    unfold same_instance, Add, log, gets, modify, mbind, Py_bind; cbn.
    by rewrite Hm, Hv. }
  unfold exec, build_on.
  assert (∀ k, (cell1 ;; cell2 ;; cell3_on n ;; cell4_on es) k
               = (for_in (range 1 (n + 1)) new_vertex_var ;; cell4_on es)
                   (put_vars ∅ (exec cell1 k))) as Hstart by done.
  rewrite !Hstart. unfold mbind, Py_bind.
  destruct (Hloop _ new_vertex_var (range 1 (n + 1)) Hvar
              (put_vars ∅ (exec cell1 k1)) (put_vars ∅ (exec cell1 k2)))
    as [Hs Hr]; [done|].
  destruct (for_in _ new_vertex_var (put_vars ∅ (exec cell1 k1))) as [a [e|[]]],
           (for_in _ new_vertex_var (put_vars ∅ (exec cell1 k2))) as [b [e'|[]]];
    cbn in Hs, Hr; try done.
  by apply Hloop.
Qed.

(** Running cell 4 a second time registers every inequality once more, and
    the assignments that satisfy the constraints stay the same. *)
Theorem cell4_again_keeps_solutions es k σ :
  (∀ i j, (i, j) ∈ es → i ∈ dom (vars k) ∧ j ∈ dom (vars k)) →
  let once := exec (cell4_on es) k in
  let twice := exec (cell4_on es ;; cell4_on es) k in
  (cell4_on es ;; cell4_on es) k = (twice, inr ()) ∧
  length (constraints (model twice))
    = (length (constraints (model k)) + 2 * length es)%nat ∧
  (satisfies_constraints σ (model twice) ↔ satisfies_constraints σ (model once)).
Proof.
  intros Hk.
  destruct (cell4_on_run es k Hk) as (cts1 & HF1 & E1).
  destruct (cell4_on_run es (constrained cts1 k) Hk) as (cts2 & HF2 & E2).
  cbn [vars constrained] in HF2.
  unfold exec. rewrite (bind_inr _ _ _ _ _ E1), E1, E2. cbn [fst].
  split; [done|]. unfold satisfies_constraints. cbn [model constraints constrained].
  split.
  - rewrite !length_app, <- (Forall2_length _ _ _ HF1),
      <- (Forall2_length _ _ _ HF2). lia.
  - rewrite !Forall_app.
    rewrite (CSP_spec.constraints_hold_iff_proper _ σ _ _ HF1).
    rewrite (CSP_spec.constraints_hold_iff_proper _ σ _ _ HF2). tauto.
Qed.

Lemma cell4_again_witness :
  (cell4_on edges ;; cell4_on edges) declared
    = (exec (cell4_on edges ;; cell4_on edges) declared, inr ()) ∧
  length (constraints (model (exec (cell4_on edges ;; cell4_on edges) declared)))
    = (length (constraints (model declared)) + 2 * length edges)%nat ∧
  (satisfies_constraints (λ p, Z.of_nat p)
     (model (exec (cell4_on edges ;; cell4_on edges) declared))
   ↔ satisfies_constraints (λ p, Z.of_nat p)
       (model (exec (cell4_on edges) declared))).
Proof.
  apply (cell4_again_keeps_solutions edges declared (λ p, Z.of_nat p)).
  intros i j Hin. rewrite !elem_of_dom. by apply CSP_spec.edges_declared.
Defined.

(** *** Cell 5 *)

Lemma csp_emit_emit l1 c1 l2 c2 k :
  emit l2 c2 (emit l1 c1 k) = emit (l1 ++ l2) (c1 ++ c2) k.
Proof. unfold emit; cbn. by rewrite <- !app_assoc. Qed.

Lemma csp_emit_nil k : emit [] [] k = k.
Proof. destruct k. unfold emit; cbn. by rewrite !app_nil_r. Qed.

Lemma print_vertex_run i x c k :
  vars k !! i = Some x → solution (solver k) !! Index x = Some c →
  print_vertex i k = (emit [vertex_line i c] [CpSolver_Value] k, inr ()).
Proof.
  intros Hx Hc.
  unfold print_vertex, getitem, Value, gets, log, modify, mbind, Py_bind.
  rewrite Hx. cbn -[String.append format_int]. by rewrite Hc.
Qed.

Lemma print_vertices_run l : ∀ colors k,
  Forall2 (λ i c, ∃ x, vars k !! i = Some x ∧
                       solution (solver k) !! Index x = Some c) l colors →
  for_in l print_vertex k =
    (emit (zip_with vertex_line l colors)
       (replicate (length l) CpSolver_Value) k, inr ()).
Proof.
  induction l as [|i l IH]; intros colors k HF.
  - apply Forall2_nil_inv_l in HF as ->. by rewrite csp_emit_nil.
  - apply Forall2_cons_inv_l in HF as (c & colors' & (x & Hx & Hc) & HF & ->).
    rewrite (for_in_step _ _ _ _ _ (print_vertex_run i x c k Hx Hc)).
    rewrite (IH colors'); [|exact HF]. by rewrite csp_emit_emit.
Qed.

Lemma cell5_on_run n search k :
  cell5_on n search k =
    report_on n (response_status (search (model k)))
      {| model := model k; vars := vars k; solver := search (model k);
         stdout := stdout k;
         calls := (calls k ++ [cp_model_CpSolver]) ++ [CpSolver_Solve] |}.
Proof. exact eq_refl. Qed.

Lemma notebook_on_feasible_run n es search k :
  endpoints_in_range n es →
  response_status (search (model (exec (build_on n es) k))) = FEASIBLE →
  length (solution (search (model (exec (build_on n es) k)))) = Z.to_nat n →
  (notebook_on n es search k).2 = inr () ∧
  stdout (exec (notebook_on n es search) k) =
    stdout k ++ "The graph is 3-colorable:"
      :: zip_with vertex_line (seqZ 1 n)
           (solution (search (model (exec (build_on n es) k)))).
Proof.
  intros Hes.
  destruct (build_on_run n es k Hes)
    as (b & cts & E & Hm & HF & Hd & Hs & Ho & Hcalls).
  unfold exec, notebook_on. rewrite (bind_inr _ _ _ _ _ E), E. cbn [fst].
  intros Hst Hlen. rewrite cell5_on_run, Hst.
  match goal with |- context [report_on _ _ ?s] => set (k0 := s) end.
  unfold report_on. rewrite decide_True, range_from_1 by done.
  assert (print "The graph is 3-colorable:" k0
          = (exec (print "The graph is 3-colorable:") k0, inr ())) as E1 by done.
  rewrite (bind_inr _ _ _ _ _ E1).
  rewrite (print_vertices_run _ (solution (search (model b)))).
  - cbn [fst snd emit stdout exec print modify k0].
    by rewrite Ho, <- !app_assoc.
  - apply Forall2_same_length_lookup_2; [by rewrite length_seqZ|].
    intros p i c [-> Hp]%lookup_seqZ Hc.
    exists (fresh_var p (1 + Z.of_nat p)). split; [|exact Hc].
    change (vars (exec (print "The graph is 3-colorable:") k0)) with (vars b).
    rewrite Hd, decide_True by lia. do 2 f_equal. lia.
Qed.

(** For every graph whose edges join vertices in 1..n, when Solve answers
    FEASIBLE with one value per variable, the notebook ends without an
    exception and appends to the output the line "The graph is
    3-colorable:" and then one line per vertex, for the vertices 1, ..., n
    in this order; the line of vertex [i] shows the value of index [i-1] of
    the response. *)
Theorem coloring_printed_vertex_by_vertex n es search k :
  endpoints_in_range n es →
  response_status (search (model (exec (build_on n es) k))) = FEASIBLE →
  length (solution (search (model (exec (build_on n es) k)))) = Z.to_nat n →
  (notebook_on n es search k).2 = inr () ∧
  stdout (exec (notebook_on n es search) k) =
    stdout k ++ "The graph is 3-colorable:"
      :: zip_with vertex_line (seqZ 1 n)
           (solution (search (model (exec (build_on n es) k)))).
Proof. apply notebook_on_feasible_run. Qed.

Lemma coloring_printed_witness :
  (notebook_on 3 [(1, 2); (2, 3)] (λ _, mkCpSolver FEASIBLE [2; 1; 2])
     fresh_kernel).2 = inr () ∧
  stdout (exec (notebook_on 3 [(1, 2); (2, 3)]
                  (λ _, mkCpSolver FEASIBLE [2; 1; 2])) fresh_kernel) =
    stdout fresh_kernel ++ "The graph is 3-colorable:"
      :: zip_with vertex_line (seqZ 1 3) [2; 1; 2].
Proof.
  apply (coloring_printed_vertex_by_vertex 3 [(1, 2); (2, 3)]
           (λ _, mkCpSolver FEASIBLE [2; 1; 2]) fresh_kernel).
  - exact path_in_range.
  - reflexivity.
  - reflexivity.
Defined.

(** When moreover the response is a solution of the model (the solver is
    sound), what the notebook prints is a proper 3-coloring of the graph:
    the output is the header and the n vertex lines, every color shown is
    1, 2 or 3, and the colors shown for the two endpoints of every edge
    differ. *)
Theorem printed_coloring_is_proper n es search k :
  endpoints_in_range n es →
  let m := model (exec (build_on n es) k) in
  let colors := solution (search m) in
  response_status (search m) = FEASIBLE →
  length colors = Z.to_nat n →
  solution_of (assignment_of colors) m →
  stdout (exec (notebook_on n es search) k) =
    stdout k ++ "The graph is 3-colorable:"
      :: zip_with vertex_line (seqZ 1 n) colors ∧
  Forall (λ c, c = 1 ∨ c = 2 ∨ c = 3) colors ∧
  (∀ i j, (i, j) ∈ es →
     ∃ ci cj, colors !! Z.to_nat (i - 1) = Some ci ∧
              colors !! Z.to_nat (j - 1) = Some cj ∧ ci ≠ cj).
Proof.
  intros Hes m colors Hst Hlen [Hdom Hct].
  split; [by apply notebook_on_feasible_run|].
  subst m colors. revert Hst Hlen Hdom Hct.
  destruct (build_on_run n es k Hes) as (b & cts & E & Hm & HF & Hd & _).
  unfold exec. rewrite E. cbn [fst].
  set (colors := solution (search (model b))). intros _ Hlen Hdom Hct.
  assert (∀ i, 1 ≤ i ≤ n →
            colors !! Z.to_nat (i - 1)
            = Some (assignment_of colors (Z.to_nat (i - 1)))) as Hc.
  { intros i Hi. unfold assignment_of.
    destruct (lookup_lt_is_Some_2 colors (Z.to_nat (i - 1))) as [c ->];
      [lia | done]. }
  rewrite Hm in Hdom. apply (domains_iff_three_coloring (vars b) n) in Hdom;
    [|exact Hd].
  unfold satisfies_constraints in Hct. rewrite Hm in Hct. cbn in Hct.
  apply (CSP_spec.constraints_hold_iff_proper (vars b) _ es cts HF) in Hct.
  split.
  - apply Forall_lookup. intros p c Hp.
    pose proof (lookup_lt_Some _ _ _ Hp) as Hlt.
    destruct (Hdom (Z.of_nat p + 1)) as (c' & Hc' & Hr); [lia|].
    rewrite (color_of_built _ n) in Hc' by (done || lia).
    replace (Z.to_nat (Z.of_nat p + 1 - 1)) with p in Hc' by lia.
    unfold assignment_of in Hc'. rewrite Hp in Hc'. cbn in Hc'.
    by injection Hc' as <-.
  - intros i j Hin. destruct (Hes i j Hin) as [Hi Hj].
    destruct (Hct i j Hin) as (ci & cj & Hci & Hcj & Hne).
    rewrite (color_of_built _ n) in Hci, Hcj by done.
    injection Hci as <-. injection Hcj as <-.
    eexists _, _. by rewrite !Hc by done.
Qed.

Lemma printed_coloring_witness :
  stdout (exec (notebook_on 3 [(1, 2); (2, 3)]
                  (λ _, mkCpSolver FEASIBLE [2; 1; 2])) fresh_kernel) =
    stdout fresh_kernel ++ "The graph is 3-colorable:"
      :: zip_with vertex_line (seqZ 1 3) [2; 1; 2] ∧
  Forall (λ c, c = 1 ∨ c = 2 ∨ c = 3) [2; 1; 2] ∧
  (∀ i j, (i, j) ∈ [(1, 2); (2, 3)] →
     ∃ ci cj, [2; 1; 2] !! Z.to_nat (i - 1) = Some ci ∧
              [2; 1; 2] !! Z.to_nat (j - 1) = Some cj ∧ ci ≠ cj).
Proof.
  apply (printed_coloring_is_proper 3 [(1, 2); (2, 3)]
           (λ _, mkCpSolver FEASIBLE [2; 1; 2]) fresh_kernel).
  - exact path_in_range.
  - reflexivity.
  - reflexivity.
  - split.
    + repeat constructor; unfold in_domain; cbn; lia.
    + repeat constructor; cbn; discriminate.
Defined.

(** When the edge list names a vertex outside 1..n, the notebook stops in
    cell 4 with KeyError for the first such endpoint: it prints nothing, and
    the solver is neither created nor called; the calls made are those that
    create the model, its n variables, and the constraints of the edges
    before the faulty one. *)
Theorem notebook_stops_on_unknown_vertex n es1 i j es2 search k :
  endpoints_in_range n es1 →
  ¬ (1 ≤ i ≤ n ∧ 1 ≤ j ≤ n) →
  let k' := exec (notebook_on n (es1 ++ (i, j) :: es2) search) k in
  (notebook_on n (es1 ++ (i, j) :: es2) search k).2
    = inl (KeyError (if decide (1 ≤ i ≤ n) then j else i)) ∧
  stdout k' = stdout k ∧
  calls k' = calls k ++ cp_model_CpModel ::
               replicate (Z.to_nat n) CpModel_NewIntVar
               ++ replicate (length es1) CpModel_Add.
Proof.
  intros Hes1 Hij. set (k1 := exec cell1 k).
  destruct (cell3_on_run n k1) as (k3 & E3 & _ & _ & _ & Ho & Hcalls & Hd).
  assert (∀ v, v ∈ dom (vars k3) ↔ 1 ≤ v ≤ n) as Hdom.
  { intros v. rewrite elem_of_dom, Hd.
    case_decide; split; eauto; [by intros [? ?] | done]. }
  destruct (cell4_on_stop es1 i j es2 k3) as (cts & HF & E4).
  { intros a b [Ha Hb]%Hes1. by rewrite !Hdom. }
  { rewrite !Hdom. lia. }
  assert (notebook_on n (es1 ++ (i, j) :: es2) search k
          = (constrained cts k3,
             inl (KeyError (if decide (1 ≤ i ≤ n) then j else i)))) as E.
  { unfold notebook_on, build_on.
    assert (cell1 k = (k1, inr ())) as E1 by done.
    assert (cell2 k1 = (k1, inr ())) as E2 by done.
    assert ((cell1 ;; cell2 ;; cell3_on n ;; cell4_on (es1 ++ (i, j) :: es2)) k
            = (constrained cts k3,
               inl (KeyError (if decide (i ∈ dom (vars k3)) then j else i))))
      as Eb.
    { by rewrite (bind_inr _ _ _ _ _ E1), (bind_inr _ _ _ _ _ E2),
        (bind_inr _ _ _ _ _ E3). }
    rewrite (bind_inl _ _ _ _ _ Eb). do 3 f_equal.
    destruct (decide (i ∈ dom (vars k3))) as [Hi|Hi]; rewrite Hdom in Hi.
    - by rewrite decide_True.
    - by rewrite decide_False. }
  unfold exec. rewrite E. cbn [fst snd constrained stdout calls].
  split; [done|]. split; [exact Ho|].
  rewrite Hcalls, (Forall2_length _ _ _ HF).
  change (calls k1) with (calls k ++ [cp_model_CpModel]).
  rewrite <- !app_assoc. reflexivity.
Qed.

Lemma notebook_stops_witness :
  (notebook_on 3 ([(1, 2)] ++ (2, 5) :: [(2, 3)]) recorded_search fresh_kernel).2
    = inl (KeyError 5) ∧
  stdout (exec (notebook_on 3 ([(1, 2)] ++ (2, 5) :: [(2, 3)]) recorded_search)
            fresh_kernel) = stdout fresh_kernel ∧
  calls (exec (notebook_on 3 ([(1, 2)] ++ (2, 5) :: [(2, 3)]) recorded_search)
           fresh_kernel)
    = calls fresh_kernel ++ cp_model_CpModel ::
        replicate (Z.to_nat 3) CpModel_NewIntVar
        ++ replicate (length [(1, 2)]) CpModel_Add.
Proof.
  apply (notebook_stops_on_unknown_vertex 3 [(1, 2)] 2 5 [(2, 3)]
           recorded_search fresh_kernel).
  - intros a b Hin. apply list_elem_of_singleton in Hin.
    injection Hin as -> ->. lia.
  - lia.
Defined.

(** Solving and printing never change the instance: after cell 5 the model
    and the dictionary are what they were, whatever the solver answers and
    also when the cell stops with an exception. *)
Theorem cell5_keeps_the_instance n search k :
  same_instance (exec (cell5_on n search) k) k.
Proof.
  assert (preserves (λ k, (model k, vars k)) (cell5_on n search)) as H.
  { unfold cell5_on. apply preserves_bind; [by intros a|]. intros _.
    apply preserves_bind; [by intros a|]. intros st.
    unfold report_on. case_decide; [|by intros a].
    apply preserves_bind; [by intros a|]. intros _.
    apply preserves_for_in. intros i. unfold print_vertex.
    apply preserves_bind; [apply preserves_gets|]. intros d.
    apply preserves_bind.
    { unfold getitem. destruct (d !! i);
        [apply preserves_ret | apply preserves_raise]. }
    intros x. apply preserves_bind; [|by intros c a].
    intros a. unfold exec, Value, gets, log, modify, mbind, Py_bind. cbn.
    by destruct (solution (solver a) !! Index x). }
  specialize (H k). cbn in H. by injection H as Hm Hv.
Qed.

End CSP_graphs.

(** ** The clingo notebook in any state of the kernel *)

Module ASP_runs.

Import ASP.
Local Open Scope Z_scope.

(** For a model made of atoms and in any state of the kernel, the callback
    ends without an exception after one call of [symbols]; it prints one
    line per atom, in the order of the model (nothing for a model without
    atoms), and leaves the control object and [answer] alone. *)
Theorem on_model_prints_each_atom m k :
  Forall is_function (atoms m) →
  ∃ lines, Forall2 atom_line (atoms m) lines ∧
           on_model m k = (emit lines [Model_symbols] k, inr ()).
Proof. apply ASP_spec.on_model_ok. Qed.

Lemma on_model_witness :
  ∃ lines,
    Forall2 atom_line [Function "left" [Number 2]; Function "p" []] lines ∧
    on_model (mkModel [Function "left" [Number 2]; Function "p" []]) loaded
    = (emit lines [Model_symbols] loaded, inr ()).
Proof.
  apply (on_model_prints_each_atom
           (mkModel [Function "left" [Number 2]; Function "p" []]) loaded).
  repeat constructor; by eexists _, _.
Defined.

Lemma cell5_run search k :
  let c := mkControl (programs (control k)) (grounded (control k)) 1 in
  atoms_are_functions (search c).1 →
  ∃ lines,
    Forall2 atom_line (concat (atoms <$> (search c).1)) lines ∧
    cell5 search k =
      ({| control := c;
          answer := Some (search c).2;
          stdout := stdout k ++ lines;
          calls := calls k ++ Control_solve ::
                     replicate (length (search c).1) Model_symbols |}, inr ()).
Proof.
  intros c Hms.
  set (k0 := {| control := c; answer := answer k; stdout := stdout k;
                calls := calls k ++ [Control_solve] |}).
  destruct (ASP_spec.callbacks_ok _ k0 Hms) as (lines & HF & E).
  exists lines. split; [done|].
  assert (cell5 search k =
            (for_in (search c).1 on_model ;;
             modify (put_answer (search c).2)) k0) as ->.
  { unfold cell5, solve, set_solve_models, log, gets, modify, mbind, Py_bind,
      mret, Py_ret; cbn. subst k0 c.
    by destruct (for_in _ on_model _) as [k' [e|[]]]. }
  rewrite (bind_inr _ _ _ _ _ E). unfold emit, put_answer, modify; cbn.
  by rewrite <- app_assoc.
Qed.



(** The notebook starts from scratch: run in any state of the kernel (after
    an earlier run, say) with models made of atoms, it ends without an
    exception, leaves the control object with the one program part
    [asp_program] and the option set to 1, binds [answer] to the result, and
    appends to the output the lines of the callback and one verdict line;
    none of this depends on what the kernel held before. *)
Theorem asp_notebook_from_any_state search k :
  atoms_are_functions (search grounded_control).1 →
  ∃ lines,
    Forall2 atom_line (concat (atoms <$> (search grounded_control).1)) lines ∧
    notebook search k =
      ({| control := grounded_control;
          answer := Some (search grounded_control).2;
          stdout := stdout k ++ lines ++
            [if decide (satisfiable (search grounded_control).2 = Some true)
             then "Found a model!" else "Did not find a model!"];
          calls := calls k ++
            [clingo_Control; Control_add; Control_ground; Control_solve]
            ++ replicate (length (search grounded_control).1) Model_symbols |},
       inr ()).
Proof.
  intros Hms.
  set (k3 := {| control := mkControl [("base", [], asp_program)]
                             [("base", [])] (-1);
                answer := answer k; stdout := stdout k;
                calls := calls k
                         ++ [clingo_Control; Control_add; Control_ground] |}).
  assert (cell3 k = (k3, inr ())) as E3.
  { unfold cell3, new_Control, add, ground, log, gets, modify, mbind, Py_bind;
      cbn. subst k3. by rewrite <- !app_assoc. }
  destruct (cell5_run search k3 Hms) as (lines & HF & E5).
  exists lines. split; [done|]. unfold notebook.
  rewrite (bind_inr _ _ _ _ _ E3), (bind_inr _ _ _ _ _ E5).
  unfold cell6, gets, print, modify, mbind, Py_bind; cbn.
  unfold grounded_control.
  destruct (decide _); cbn; rewrite <- !app_assoc; reflexivity.
Qed.

Lemma asp_notebook_witness :
  ∃ lines,
    Forall2 atom_line
      (concat (atoms <$> (recorded_search grounded_control).1)) lines ∧
    notebook recorded_search (exec (notebook recorded_search) fresh_kernel) =
      ({| control := grounded_control;
          answer := Some (mkSolveResult (Some true));
          stdout := stdout (exec (notebook recorded_search) fresh_kernel)
                    ++ lines ++ ["Found a model!"];
          calls := calls (exec (notebook recorded_search) fresh_kernel) ++
            [clingo_Control; Control_add; Control_ground; Control_solve]
            ++ replicate 1 Model_symbols |},
       inr ()).
Proof.
  apply (asp_notebook_from_any_state recorded_search
           (exec (notebook recorded_search) fresh_kernel)).
  repeat constructor; by eexists _, _.
Defined.

End ASP_runs.
